(** * gowiki: the title validator, the page store and the request handlers

    A shallow embedding of [wiki.go].  The program is small; what it relies
    on is not, so the file is organised by the Go package each definition
    stands for:

    - [regexp]: the fragment of Go's regular expressions that the pattern
      [validPath] is written in, with a backtracking matcher that reports
      capture groups the way [FindStringSubmatch] does;
    - [os]: errors, and the file system behind [ioutil.ReadFile] and
      [ioutil.WriteFile], first as an interface and then as a finite map
      from file names to inodes;
    - [http]: requests, the response writer as the sequence of replies a
      handler produced, and a serve mux with prefix patterns;
    - the wiki itself: [Page], [save], [loadPage], the three handlers,
      [makeHandler], [validPath] and the registrations made by [main].

    Go strings are byte sequences, and so are Rocq's: a [string] is a list
    of 8-bit [ascii] characters. *)

From Stdlib Require Import ZArith NArith Ascii String.
From Stdlib.Strings Require Import Byte.
From stdpp Require Import gmap strings list.

Local Open Scope Z_scope.

(** ** Package regexp *)

Module regexp.

(** The operators of [regexp/syntax] that occur in [validPath]. *)
Inductive Regexp : Type :=
| OpBeginText                                  (* ^ *)
| OpEndText                                    (* $ *)
| OpLiteral (lit : string)                     (* abc *)
| OpCharClass (ranges : list (ascii * ascii))  (* [a-zA-Z0-9] *)
| OpPlus (sub : Regexp)                        (* x+ *)
| OpCapture (idx : nat) (sub : Regexp)         (* (x) *)
| OpConcat (r1 r2 : Regexp)                    (* xy *)
| OpAlternate (r1 r2 : Regexp).                (* x|y *)

(** Capture registers: group index to the byte offsets where the group
    starts and ends. *)
Abbreviation Captures := (gmap nat (nat * nat)).

(** What remains to be matched, as a function of the offset reached, the
    unread text and the registers. *)
Definition Cont : Type := nat → string → Captures → option Captures.

Definition in_range (c : ascii) (r : ascii * ascii) : bool :=
  (nat_of_ascii r.1 <=? nat_of_ascii c)%nat && (nat_of_ascii c <=? nat_of_ascii r.2)%nat.

Definition in_class (ranges : list (ascii * ascii)) (c : ascii) : bool :=
  existsb (in_range c) ranges.

(** [strip_prefix lit s] is the text after [lit] when [s] starts with it. *)
Fixpoint strip_prefix (lit s : string) : option string :=
  match lit, s with
  | EmptyString, _ => Some s
  | String a lit', String b s' =>
      if Ascii.eqb a b then strip_prefix lit' s' else None
  | String _ _, EmptyString => None
  end.

(** One or more iterations of [step], as many as possible first.  Every
    further iteration has to consume input, so [fuel] above the length of
    the unread text is never used up. *)
Fixpoint plus_loop (step : nat → string → Captures → Cont → option Captures)
    (fuel : nat) (pos : nat) (s : string) (caps : Captures) (k : Cont)
    : option Captures :=
  match fuel with
  | O => None
  | S fuel' =>
      step pos s caps (λ pos' s' caps',
        if (pos <? pos')%nat then
          match plus_loop step fuel' pos' s' caps' k with
          | Some done => Some done
          | None => k pos' s' caps'
          end
        else k pos' s' caps')
  end.

(** The matcher: leftmost alternative first, greedy repetition, and
    backtracking into the alternatives not yet tried when the rest of the
    pattern fails. *)
Fixpoint run (re : Regexp) (pos : nat) (s : string) (caps : Captures)
    (k : Cont) {struct re} : option Captures :=
  match re with
  | OpBeginText => if (pos =? 0)%nat then k pos s caps else None
  | OpEndText =>
      match s with
      | EmptyString => k pos s caps
      | String _ _ => None
      end
  | OpLiteral lit =>
      match strip_prefix lit s with
      | Some s' => k (pos + String.length lit)%nat s' caps
      | None => None
      end
  | OpCharClass ranges =>
      match s with
      | String c s' => if in_class ranges c then k (S pos) s' caps else None
      | EmptyString => None
      end
  | OpPlus sub => plus_loop (run sub) (S (String.length s)) pos s caps k
  | OpCapture idx sub =>
      run sub pos s caps (λ pos' s' caps', k pos' s' (<[idx := (pos, pos')]> caps'))
  | OpConcat r1 r2 =>
      run r1 pos s caps (λ pos' s' caps', run r2 pos' s' caps' k)
  | OpAlternate r1 r2 =>
      match run r1 pos s caps k with
      | Some done => Some done
      | None => run r2 pos s caps k
      end
  end.

(** The end of the pattern: register 0 takes the whole match. *)
Definition final (pos : nat) : Cont :=
  λ pos' _ caps, Some (<[0%nat := (pos, pos')]> caps).

(** The pattern is not anchored by the matcher itself: a match may start
    at any offset, the leftmost one wins. *)
Fixpoint search (re : Regexp) (pos : nat) (s : string) : option Captures :=
  match run re pos s ∅ (final pos) with
  | Some caps => Some caps
  | None =>
      match s with
      | EmptyString => None
      | String _ s' => search re (S pos) s'
      end
  end.

Fixpoint NumSubexp (re : Regexp) : nat :=
  match re with
  | OpBeginText | OpEndText | OpLiteral _ | OpCharClass _ => 0
  | OpPlus sub => NumSubexp sub
  | OpCapture idx sub => Nat.max idx (NumSubexp sub)
  | OpConcat r1 r2 | OpAlternate r1 r2 => Nat.max (NumSubexp r1) (NumSubexp r2)
  end.

(** [FindStringSubmatch] returns [nil] ([None]) when there is no match,
    and otherwise the matched text followed by the text of each group
    (empty for a group that took no part in the match). *)
Definition FindStringSubmatch (re : Regexp) (s : string) : option (list string) :=
  match search re 0 s with
  | None => None
  | Some caps =>
      Some (map (λ i, match caps !! i with
                      | Some (b, e) => substring b (e - b) s
                      | None => EmptyString
                      end)
                (seq 0 (S (NumSubexp re))))
  end.

End regexp.

(** ** Package os, with io/ioutil *)

Module os.

(** The error numbers the model can produce. *)
Inductive Errno : Type := ENOENT | EISDIR | EACCES | ENAMETOOLONG.

Definition Errno_Error (e : Errno) : string :=
  match e with
  | ENOENT => "no such file or directory"
  | EISDIR => "is a directory"
  | EACCES => "permission denied"
  | ENAMETOOLONG => "file name too long"
  end.

(** Go's [error] is an interface with one method, [Error() string].  Two
    implementations occur: [*os.PathError] and the plain message of
    [errors.New]. *)
Inductive error : Type :=
| PathError (Op Path : string) (Err : Errno)
| errorString (s : string).

Definition Error (e : error) : string :=
  match e with
  | PathError op path err => op +:+ " " +:+ path +:+ ": " +:+ Errno_Error err
  | errorString s => s
  end.

(** A result that comes with an [error]: exactly one of the two is set on
    every return path of the functions modelled here. *)
Inductive result (A : Type) : Type :=
| Ok (a : A)
| Err (e : error).
Global Arguments Ok {A} a.
Global Arguments Err {A} e.

(** Permission bits, [os.FileMode]: bit 8 lets the owner read, bit 7 lets
    the owner write, the six bits below are for the group and for
    everybody else. *)
Definition FileMode : Type := N.

Definition S_IRUSR : FileMode := 0x100%N.
Definition S_IWUSR : FileMode := 0x80%N.
Definition S_IRWXG : FileMode := 0x38%N.
Definition S_IRWXO : FileMode := 0x7%N.

Definition owner_may_read (mode : FileMode) : bool := N.testbit mode 8.
Definition owner_may_write (mode : FileMode) : bool := N.testbit mode 7.

(** The longest name a directory entry can have, in bytes. *)
Definition NAME_MAX : nat := 255.

(** What a file system has to offer to [ioutil]: reading a whole file, and
    writing one.  [S] is the state of the storage; nothing is assumed
    about it, so an implementation may fail whenever and however it
    likes. *)
Class FileSystem (S : Type) : Type := {
  fs_read : string → S → result (list byte) * S;
  fs_write : string → list byte → FileMode → S → option error * S
}.

(** The calls a program made to the file system, in order. *)
Inductive Syscall : Type :=
| SysReadFile (filename : string)
| SysWriteFile (filename : string) (data : list byte) (perm : FileMode).

Definition Syscall_path (c : Syscall) : string :=
  match c with
  | SysReadFile filename => filename
  | SysWriteFile filename _ _ => filename
  end.

(** Everything outside the process: the storage, and the record of the
    calls made to it. *)
Record World (S : Type) : Type := mkWorld {
  disk : S;
  trace : list Syscall
}.
Global Arguments mkWorld {S} disk trace.
Global Arguments disk {S} w.
Global Arguments trace {S} w.

(** Computations that may touch the world. *)
Definition IO (S A : Type) : Type := World S → A * World S.

Definition ret {S A} (a : A) : IO S A := λ w, (a, w).

Definition bind {S A B} (m : IO S A) (f : A → IO S B) : IO S B :=
  λ w, let (a, w') := m w in f a w'.

(** [ioutil.ReadFile(filename)] *)
Definition ReadFile {S} `{FileSystem S} (filename : string) : IO S (result (list byte)) :=
  λ w, let (r, d) := fs_read filename (disk w) in
       (r, mkWorld d (trace w ++ [SysReadFile filename])).

(** [ioutil.WriteFile(filename, data, perm)] *)
Definition WriteFile {S} `{FileSystem S} (filename : string) (data : list byte)
    (perm : FileMode) : IO S (option error) :=
  λ w, let (e, d) := fs_write filename data perm (disk w) in
       (e, mkWorld d (trace w ++ [SysWriteFile filename data perm])).

(** *** A working directory as a finite map

    An entry of the directory is a regular file, with its permission bits
    and its contents, or a subdirectory.  The server owns the files and
    is not the superuser, so the owner bits of a file decide whether it
    may open it.  Names are those of the entries of this one directory:
    what lies inside the subdirectories is not part of the model, nor are
    the failures of the device (a full disk, an I/O error). *)
Inductive Inode : Type :=
| RegularFile (mode : FileMode) (data : list byte)
| Directory.

(** Opening fails on a name that is too long, on a missing file, and on a
    file the owner may not read; a directory can be opened, but not read
    from. *)
Definition dir_read (filename : string) (d : gmap string Inode)
    : result (list byte) * gmap string Inode :=
  if (NAME_MAX <? String.length filename)%nat
  then (Err (PathError "open" filename ENAMETOOLONG), d)
  else
    match d !! filename with
    | None => (Err (PathError "open" filename ENOENT), d)
    | Some Directory => (Err (PathError "read" filename EISDIR), d)
    | Some (RegularFile mode data) =>
        if owner_may_read mode then (Ok data, d)
        else (Err (PathError "open" filename EACCES), d)
    end.

(** [WriteFile] opens with [O_WRONLY|O_CREATE|O_TRUNC]: a missing file is
    created with [perm]; an existing one, if the owner may write it, is
    truncated and keeps its mode; a directory cannot be opened for
    writing, and a name that is too long cannot be opened at all. *)
Definition dir_write (filename : string) (data : list byte) (perm : FileMode)
    (d : gmap string Inode) : option error * gmap string Inode :=
  if (NAME_MAX <? String.length filename)%nat
  then (Some (PathError "open" filename ENAMETOOLONG), d)
  else
    match d !! filename with
    | None => (None, <[filename := RegularFile perm data]> d)
    | Some (RegularFile mode _) =>
        if owner_may_write mode
        then (None, <[filename := RegularFile mode data]> d)
        else (Some (PathError "open" filename EACCES), d)
    | Some Directory => (Some (PathError "open" filename EISDIR), d)
    end.

#[global] Instance dirFS : FileSystem (gmap string Inode) := {
  fs_read := dir_read;
  fs_write := dir_write
}.

End os.

Notation "x <- m ;; k" := (os.bind m (λ x, k))
  (at level 100, m at next level, right associativity).

(** ** Package net/http *)

Module http.

Definition StatusFound : Z := 302.
Definition StatusNotFound : Z := 404.
Definition StatusInternalServerError : Z := 500.

(** The part of [*http.Request] a handler of the wiki looks at; [Form] is
    the parsed form data, a [map[string][]string]. *)
Record Request : Type := mkRequest {
  Method : string;
  URL_Path : string;
  Form : gmap string (list string)
}.

(** [r.FormValue(key)]: the first value for [key], or the empty string. *)
Definition FormValue (r : Request) (key : string) : string :=
  match Form r !! key with
  | Some (v :: _) => v
  | _ => ""
  end.

(** A response writer is represented by what has been sent through it:
    a redirect with its target and status, an error reply with its
    message and status, or a piece of the body. *)
Inductive Reply : Type :=
| ReplyRedirect (url : string) (code : Z)
| ReplyError (msg : string) (code : Z)
| ReplyWrite (out : string).

Definition ResponseWriter : Type := list Reply.

(** [http.Redirect(w, r, url, code)] *)
Definition Redirect (w : ResponseWriter) (r : Request) (url : string) (code : Z)
    : ResponseWriter :=
  w ++ [ReplyRedirect url code].

(** [http.Error(w, error, code)] *)
Definition Error (w : ResponseWriter) (error : string) (code : Z) : ResponseWriter :=
  w ++ [ReplyError error code].

(** [http.NotFound(w, r)] *)
Definition NotFound (w : ResponseWriter) (r : Request) : ResponseWriter :=
  Error w "404 page not found" StatusNotFound.

(** The status line the client receives is decided by the first reply;
    a body written without one goes out with 200. *)
Definition status (w : ResponseWriter) : option Z :=
  match w with
  | [] => None
  | ReplyRedirect _ code :: _ => Some code
  | ReplyError _ code :: _ => Some code
  | ReplyWrite _ :: _ => Some 200
  end.

Definition is_redirect (rp : Reply) : bool :=
  match rp with
  | ReplyRedirect _ _ => true
  | _ => false
  end.

Definition HandlerFunc (S : Type) : Type :=
  ResponseWriter → Request → os.IO S ResponseWriter.

(** The serve mux, as far as [main] uses it: patterns that end in a slash
    name a subtree and match every path they are a prefix of; among the
    matching patterns the longest wins; a path that matches none is
    answered with [NotFound].  The redirects by which the mux first
    brings a path into its clean form are left out: they concern paths
    with empty, [.] or [..] segments only. *)
Definition ServeMux (S : Type) : Type := list (string * HandlerFunc S).

Definition HandleFunc {S} (pattern : string) (handler : HandlerFunc S)
    (mux : ServeMux S) : ServeMux S :=
  mux ++ [(pattern, handler)].

Fixpoint ends_in_slash (s : string) : bool :=
  match s with
  | EmptyString => false
  | String c EmptyString => Ascii.eqb c "/"
  | String _ s' => ends_in_slash s'
  end.

Definition pathMatch (pattern path : string) : bool :=
  if ends_in_slash pattern then String.prefix pattern path
  else String.eqb pattern path.

Fixpoint lookup_handler {S} (mux : ServeMux S) (path : string)
    (best : option (string * HandlerFunc S)) : option (string * HandlerFunc S) :=
  match mux with
  | [] => best
  | (pattern, h) :: mux' =>
      let longer :=
        match best with
        | None => true
        | Some (p, _) => (String.length p <? String.length pattern)%nat
        end in
      lookup_handler mux' path
        (if pathMatch pattern path && longer then Some (pattern, h) else best)
  end.

Definition ServeHTTP {S} (mux : ServeMux S) : HandlerFunc S :=
  λ w r,
    match lookup_handler mux (URL_Path r) None with
    | Some (_, h) => h w r
    | None => os.ret (NotFound w r)
    end.

End http.

Import regexp os.

(** ** The wiki *)

Record Page : Type := mkPage {
  Title : string;
  Body : list byte
}.

(** The template set: given the name of a template and a page, the pieces
    of text it writes, in order, and the error it returns, if any.  A
    template that fails may have written part of its output, or none. *)
Definition Template : Type := string → Page → list string * option error.

(** [t.ExecuteTemplate(w, name, data)] *)
Definition ExecuteTemplate (t : Template) (w : http.ResponseWriter) (name : string)
    (data : Page) : http.ResponseWriter * option error :=
  let (outs, err) := t name data in (w ++ map http.ReplyWrite outs, err).

(** [var validPath = regexp.MustCompile("^/(edit|save|view)/([a-zA-Z0-9]+)$")] *)
Definition title_class : list (ascii * ascii) :=
  [("a"%char, "z"%char); ("A"%char, "Z"%char); ("0"%char, "9"%char)].

Definition validPath : Regexp :=
  OpConcat OpBeginText
    (OpConcat (OpLiteral "/")
      (OpConcat (OpCapture 1 (OpAlternate (OpLiteral "edit")
                               (OpAlternate (OpLiteral "save") (OpLiteral "view"))))
        (OpConcat (OpLiteral "/")
          (OpConcat (OpCapture 2 (OpPlus (OpCharClass title_class)))
            OpEndText)))).

(** [[]byte(s)] *)
Definition bytes (s : string) : list byte := list_byte_of_string s.

Section Wiki.

Context {S : Type} `{FileSystem S}.

(** [var templates = template.Must(template.ParseFiles("edit.html", "view.html"))] *)
Variable templates : Template.

Definition save (p : Page) : IO S (option error) :=
  let filename := Title p +:+ ".txt" in
  WriteFile filename (Body p) 0x180%N.      (* 0600 *)

Definition loadPage (title : string) : IO S (result Page) :=
  let filename := title +:+ ".txt" in
  r <- ReadFile filename ;;
  match r with
  | Err err => ret (Err err)
  | Ok body => ret (Ok (mkPage title body))
  end.

Definition renderTemplate (w : http.ResponseWriter) (tmpl : string) (p : Page)
    : http.ResponseWriter :=
  let (w, err) := ExecuteTemplate templates w (tmpl +:+ ".html") p in
  match err with
  | Some err => http.Error w (Error err) http.StatusInternalServerError
  | None => w
  end.

Definition viewHandler (w : http.ResponseWriter) (r : http.Request) (title : string)
    : IO S http.ResponseWriter :=
  l <- loadPage title ;;
  match l with
  | Err _ => ret (http.Redirect w r ("/edit/" +:+ title) http.StatusFound)
  | Ok p => ret (renderTemplate w "view" p)
  end.

Definition saveHandler (w : http.ResponseWriter) (r : http.Request) (title : string)
    : IO S http.ResponseWriter :=
  let body := http.FormValue r "body" in
  let p := mkPage title (bytes body) in
  err <- save p ;;
  match err with
  | Some err => ret (http.Error w (Error err) http.StatusInternalServerError)
  | None => ret (http.Redirect w r ("/view/" +:+ title) http.StatusFound)
  end.

Definition editHandler (w : http.ResponseWriter) (r : http.Request) (title : string)
    : IO S http.ResponseWriter :=
  l <- loadPage title ;;
  let p := match l with
           | Err _ => mkPage title []
           | Ok p => p
           end in
  ret (renderTemplate w "edit" p).

(** A non-nil result of [FindStringSubmatch] on [validPath] has three
    elements (lemma [FindStringSubmatch_length]), so [m[2]] is in range. *)
Definition makeHandler
    (fn : http.ResponseWriter → http.Request → string → IO S http.ResponseWriter)
    : http.HandlerFunc S :=
  λ w r,
    match FindStringSubmatch validPath (http.URL_Path r) with
    | None => ret (http.NotFound w r)
    | Some m => fn w r (nth 2 m "")
    end.

Definition getTitle (w : http.ResponseWriter) (r : http.Request)
    : http.ResponseWriter * result string :=
  match FindStringSubmatch validPath (http.URL_Path r) with
  | None => (http.NotFound w r, Err (errorString "Invalid Page Title"))
  | Some m => (w, Ok (nth 2 m ""))
  end.

(** The registrations [main] makes with the default serve mux. *)
Definition main : http.ServeMux S :=
  http.HandleFunc "/edit/" (makeHandler editHandler)
    (http.HandleFunc "/save/" (makeHandler saveHandler)
      (http.HandleFunc "/view/" (makeHandler viewHandler) [])).

(** The handler that [main] wraps for the subtree of an operation. *)
Definition handler_for (op : string)
    : http.ResponseWriter → http.Request → string → IO S http.ResponseWriter :=
  if String.eqb op "view" then viewHandler
  else if String.eqb op "save" then saveHandler
  else editHandler.

(** The names of the files a computation asks the file system for. *)
Definition touched {A} (m : IO S A) (world : World S) : list string :=
  map Syscall_path (drop (length (trace world)) (trace (m world).2)).

End Wiki.

(** ** Vocabulary of the statements *)

(** A title in the sense of the pattern [[a-zA-Z0-9]+]: not empty, and made
    of characters of [title_class] only. *)
Fixpoint all_in_class (ranges : list (ascii * ascii)) (s : string) : bool :=
  match s with
  | EmptyString => true
  | String c s' => in_class ranges c && all_in_class ranges s'
  end.

Definition is_title (t : string) : bool :=
  match t with
  | EmptyString => false
  | String _ _ => all_in_class title_class t
  end.

(** The pattern [^[a-zA-Z0-9]+$], for a title on its own. *)
Definition title_pattern : Regexp :=
  OpConcat OpBeginText (OpConcat (OpPlus (OpCharClass title_class)) OpEndText).

(** A continuation that fails unless the whole text has been read, as
    everything that follows the second group of [validPath] does. *)
Definition at_end_only (k : Cont) : Prop :=
  ∀ pos c s caps, k pos (String c s) caps = None.

(** What [validPath] has to match after its first group. *)
Definition title_part : Regexp :=
  OpConcat (OpLiteral "/")
    (OpConcat (OpCapture 2 (OpPlus (OpCharClass title_class))) OpEndText).

(** The registers after a match of [validPath] with title [t]: operations
    have four letters, so the groups always sit at the same offsets. *)
Definition registers (t : string) : Captures :=
  <[0%nat := (0, 6 + String.length t)%nat]>
    (<[2%nat := (6, 6 + String.length t)%nat]> (<[1%nat := (1, 5)%nat]> ∅)).

(** The three operations named by the first group of [validPath]. *)
Definition operations : list string := ["edit"; "save"; "view"].

(** [valid_path p op t]: [p] is [/op/t] for an operation [op] and a title
    [t], which is what [^/(edit|save|view)/([a-zA-Z0-9]+)$] describes. *)
Definition valid_path (p op t : string) : Prop :=
  p = "/" +:+ op +:+ "/" +:+ t ∧ op ∈ operations ∧ is_title t = true.

(** The methods under which the interface description lists each
    operation: [GET|POST /view/], [GET /edit/], [POST /save/]. *)
Definition listed_methods (op : string) : list string :=
  if String.eqb op "view" then ["GET"; "POST"]
  else if String.eqb op "edit" then ["GET"]
  else if String.eqb op "save" then ["POST"]
  else [].

(** [occurs c s]: the character [c] occurs in [s]. *)
Fixpoint occurs (c : ascii) (s : string) : bool :=
  match s with
  | EmptyString => false
  | String c' s' => Ascii.eqb c c' || occurs c s'
  end.

(** A template set that renders every page as its title and body, and one
    that fails; and a working directory to try things in. *)
Definition plain_templates : Template :=
  λ name p, ([name +:+ ":" +:+ Title p +:+ ":" +:+ string_of_list_byte (Body p)], None).

Definition broken_templates : Template :=
  λ name p, ([], Some (errorString ("html/template: " +:+ name +:+ " is undefined"))).

(** A template set that fails after it has written the title. *)
Definition partial_templates : Template :=
  λ name p, ([Title p], Some (errorString ("html/template: " +:+ name +:+ " failed"))).

(** A title of 252 letters: with [.txt] its file name has 256 bytes, one
    more than a name may have. *)
Definition long_title : string := string_of_list_ascii (replicate 252 "a"%char).

Definition empty_dir : World (gmap string Inode) := mkWorld ∅ [].

(** A directory in which [Test.txt] is a file that somebody else made,
    with mode 0644, and one in which that name is taken by a directory. *)
Definition sample_dir : World (gmap string Inode) :=
  mkWorld {[ "Test.txt" := RegularFile 0x1a4%N (bytes "hello") ]} [].

Definition blocked_dir : World (gmap string Inode) :=
  mkWorld {[ "Test.txt" := Directory ]} [].

(** A directory in which [Test.txt] may be written by its owner, but not
    read (mode 0200). *)
Definition write_only_dir : World (gmap string Inode) :=
  mkWorld {[ "Test.txt" := RegularFile 0x80%N [] ]} [].

(** * Properties *)

(** ** Strings *)

(** [String.append] does not reduce under [simpl]; its two equations are
    used through conversion. *)
Lemma append_cons c s1 s2 : String c s1 +:+ s2 = String c (s1 +:+ s2).
Proof. done. Qed.

Lemma append_assoc s1 s2 s3 : (s1 +:+ s2) +:+ s3 = s1 +:+ s2 +:+ s3.
Proof.
  induction s1 as [|c s1 IH]; [done|]. by rewrite !append_cons, IH.
Qed.

Lemma length_append s1 s2 :
  String.length (s1 +:+ s2) = (String.length s1 + String.length s2)%nat.
Proof. induction s1 as [|c s1 IH]; [done|]. simpl. by rewrite IH. Qed.

Lemma append_inv_tail s1 s2 t : s1 +:+ t = s2 +:+ t → s1 = s2.
Proof.
  revert s2. induction s1 as [|c s1 IH]; intros [|c' s2] Heq; [done| | |].
  - apply (f_equal String.length) in Heq.
    rewrite (length_append (String c' s2)) in Heq.
    change (String.length ("" +:+ t)) with (String.length t) in Heq.
    cbn [String.length] in Heq. lia.
  - apply (f_equal String.length) in Heq.
    rewrite (length_append (String c s1)) in Heq.
    change (String.length ("" +:+ t)) with (String.length t) in Heq.
    cbn [String.length] in Heq. lia.
  - rewrite !append_cons in Heq. injection Heq as -> Heq. by rewrite (IH _ Heq).
Qed.

Lemma substring_all s : substring 0 (String.length s) s = s.
Proof. induction s as [|c s IH]; [done|]. simpl. by rewrite IH. Qed.

Lemma substring_skip pre s n m :
  String.length pre = n → substring n m (pre +:+ s) = substring 0 m s.
Proof.
  revert n. induction pre as [|c pre IH]; intros n <-; [done|]. simpl. by apply IH.
Qed.

Lemma substring_take pre s n :
  String.length pre = n → substring 0 n (pre +:+ s) = pre.
Proof.
  revert n. induction pre as [|c pre IH]; intros n <-; simpl.
  - by destruct s.
  - by rewrite IH.
Qed.

Lemma prefix_append s t : String.prefix s (s +:+ t) = true.
Proof.
  induction s as [|c s IH]; [by destruct t|].
  rewrite append_cons. simpl. by destruct (ascii_dec c c).
Qed.

Lemma strip_prefix_app lit s : strip_prefix lit (lit +:+ s) = Some s.
Proof.
  induction lit as [|a lit IH]; simpl; [done|]. by rewrite Ascii.eqb_refl.
Qed.

Lemma strip_prefix_Some lit s s' : strip_prefix lit s = Some s' → s = lit +:+ s'.
Proof.
  revert s. induction lit as [|a lit IH]; intros s; simpl.
  - by intros [= ->].
  - destruct s as [|b s]; [done|].
    destruct (Ascii.eqb a b) eqn:E; [|done].
    apply Ascii.eqb_eq in E as ->. intros Hs. by rewrite (IH _ Hs).
Qed.

(** ** The matcher, operator by operator *)

Lemma run_begin s caps k : run OpBeginText 0 s caps k = k 0%nat s caps.
Proof. done. Qed.

Lemma run_literal lit pos s caps k :
  run (OpLiteral lit) pos s caps k =
  match strip_prefix lit s with
  | Some s' => k (pos + String.length lit)%nat s' caps
  | None => None
  end.
Proof. done. Qed.

Lemma run_concat r1 r2 pos s caps k :
  run (OpConcat r1 r2) pos s caps k =
  run r1 pos s caps (λ pos' s' caps', run r2 pos' s' caps' k).
Proof. done. Qed.

Lemma run_capture idx sub pos s caps k :
  run (OpCapture idx sub) pos s caps k =
  run sub pos s caps (λ pos' s' caps', k pos' s' (<[idx := (pos, pos')]> caps')).
Proof. done. Qed.

Lemma run_alternate r1 r2 pos s caps k :
  run (OpAlternate r1 r2) pos s caps k =
  match run r1 pos s caps k with
  | Some done => Some done
  | None => run r2 pos s caps k
  end.
Proof. done. Qed.

Lemma run_literal_Some lit pos s caps k r :
  run (OpLiteral lit) pos s caps k = Some r →
  ∃ s', s = lit +:+ s' ∧ k (pos + String.length lit)%nat s' caps = Some r.
Proof.
  rewrite run_literal. destruct (strip_prefix lit s) as [s'|] eqn:E; [|done].
  intros Hk. exists s'. split; [by apply strip_prefix_Some|done].
Qed.

Lemma run_literal_app lit pos s caps k :
  run (OpLiteral lit) pos (lit +:+ s) caps k = k (pos + String.length lit)%nat s caps.
Proof. by rewrite run_literal, strip_prefix_app. Qed.

(** A class repeated in front of a continuation that wants the end of the
    text: the loop takes every character, and gives none back, since the
    continuation would refuse what is left.  The fuel is enough. *)
Lemma plus_loop_class ranges (k : Cont) :
  at_end_only k →
  ∀ s fuel pos caps, (String.length s < fuel)%nat →
    plus_loop (run (OpCharClass ranges)) fuel pos s caps k =
    if (match s with EmptyString => false | String _ _ => all_in_class ranges s end)
    then k (pos + String.length s)%nat "" caps else None.
Proof.
  intros Hk. induction s as [|c s IH]; intros fuel pos caps Hfuel.
  - destruct fuel; [simpl in *; lia|]. done.
  - destruct fuel as [|fuel]; [simpl in *; lia|].
    cbn [plus_loop run all_in_class].
    destruct (in_class ranges c); [|done]. cbn [andb].
    replace (pos <? S pos)%nat with true by (symmetry; apply Nat.ltb_lt; lia).
    rewrite IH by (simpl in *; lia).
    destruct s as [|c' s].
    + simpl. by replace (pos + 1)%nat with (S pos) by lia.
    + rewrite Hk.
      replace (S pos + String.length (String c' s))%nat
        with (pos + String.length (String c (String c' s)))%nat by (simpl; lia).
      destruct (all_in_class ranges (String c' s)); [|done].
      by destruct (k _ _ _).
Qed.

Lemma run_plus_class ranges pos s caps k :
  at_end_only k →
  run (OpPlus (OpCharClass ranges)) pos s caps k =
  if (match s with EmptyString => false | String _ _ => all_in_class ranges s end)
  then k (pos + String.length s)%nat "" caps else None.
Proof. intros Hk. apply (plus_loop_class ranges k Hk). lia. Qed.

Lemma FindStringSubmatch_length re s m :
  FindStringSubmatch re s = Some m → length m = S (NumSubexp re).
Proof.
  unfold FindStringSubmatch. destruct (search re 0 s); [|done].
  intros Hm. injection Hm as <-. simpl. by rewrite List.length_map, List.length_seq.
Qed.

(** ** Titles and operations *)

Lemma operations_inv op : op ∈ operations → op = "edit" ∨ op = "save" ∨ op = "view".
Proof. unfold operations. rewrite !elem_of_cons, elem_of_nil. tauto. Qed.

Ltac operation_cases Hop :=
  destruct (operations_inv _ Hop) as [->|[->| ->]].

Lemma edit_in_operations : "edit" ∈ operations.
Proof. unfold operations. rewrite !elem_of_cons. tauto. Qed.

Lemma save_in_operations : "save" ∈ operations.
Proof. unfold operations. rewrite !elem_of_cons. tauto. Qed.

Lemma view_in_operations : "view" ∈ operations.
Proof. unfold operations. rewrite !elem_of_cons. tauto. Qed.

Create HintDb wiki.
#[export] Hint Resolve edit_in_operations save_in_operations view_in_operations : wiki.

Lemma operations_length op : op ∈ operations → String.length op = 4%nat.
Proof. intros Hop. by operation_cases Hop. Qed.

Lemma all_in_class_occurs ranges c s :
  all_in_class ranges s = true → in_class ranges c = false → occurs c s = false.
Proof.
  intros Hall Hc. induction s as [|c' s IH]; [done|].
  cbn [all_in_class occurs] in *. apply andb_true_iff in Hall as [Hc' Hall].
  rewrite (IH Hall), orb_false_r. apply Ascii.eqb_neq. intros ->. congruence.
Qed.

Lemma is_title_all t : is_title t = true → all_in_class title_class t = true.
Proof. by destruct t. Qed.

Lemma is_title_occurs c t :
  is_title t = true → in_class title_class c = false → occurs c t = false.
Proof. intros Ht. apply all_in_class_occurs. by apply is_title_all. Qed.

(** [is_title] is the pattern [^[a-zA-Z0-9]+$] as the matcher sees it. *)
Lemma is_title_matches t :
  is_title t = true ↔ is_Some (run title_pattern 0 t ∅ (final 0)).
Proof.
  unfold title_pattern.
  rewrite run_concat, run_begin, run_concat, run_plus_class by (by intros ? ? ? ?).
  unfold is_title. destruct t as [|c t].
  - split; [done|]. by intros [? ?].
  - destruct (all_in_class title_class (String c t)); cbn [run final].
    + split; [eauto|done].
    + split; [done|]. by intros [? ?].
Qed.

Lemma valid_path_intro op t :
  op ∈ operations → is_title t = true → valid_path ("/" +:+ op +:+ "/" +:+ t) op t.
Proof. by intros Hop Ht. Qed.

(** A path is valid in one way only. *)
Lemma valid_path_inj p op t op' t' :
  valid_path p op t → valid_path p op' t' → op = op' ∧ t = t'.
Proof.
  intros (-> & Hop & _) (Heq & Hop' & _).
  operation_cases Hop; operation_cases Hop';
    cbv [String.append] in Heq; try discriminate Heq;
    by injection Heq as ->.
Qed.

(** ** The pattern [validPath] *)

Lemma run_title_part pos s caps :
  run title_part pos s caps (final 0) =
  match strip_prefix "/" s with
  | Some t =>
      if is_title t
      then Some (<[0%nat := (0, pos + 1 + String.length t)%nat]>
                  (<[2%nat := (pos + 1, pos + 1 + String.length t)%nat]> caps))
      else None
  | None => None
  end.
Proof.
  unfold title_part. rewrite run_concat, run_literal.
  destruct (strip_prefix "/" s) as [t|]; [|done].
  rewrite run_concat, run_capture, run_plus_class by (by intros ? ? ? ?).
  unfold is_title. destruct t as [|c t]; [done|].
  destruct (all_in_class _ _); [|done]. cbn [run final].
  by replace (pos + String.length "/")%nat with (pos + 1)%nat by (simpl; lia).
Qed.

Lemma run_validPath_unfold p :
  run validPath 0 p ∅ (final 0) =
  match strip_prefix "/" p with
  | Some s =>
      run (OpAlternate (OpLiteral "edit")
             (OpAlternate (OpLiteral "save") (OpLiteral "view")))
        1 s ∅
        (λ pos' s' caps',
           run title_part pos' s' (<[1%nat := (1, pos')%nat]> caps') (final 0))
  | None => None
  end.
Proof. done. Qed.

Lemma run_operation op s caps :
  String.length op = 4%nat →
  run (OpLiteral op) 1 s ∅
    (λ pos' s' caps',
       run title_part pos' s' (<[1%nat := (1, pos')%nat]> caps') (final 0))
  = Some caps →
  ∃ t, s = op +:+ "/" +:+ t ∧ is_title t = true ∧ caps = registers t.
Proof.
  intros Hlen Hrun. apply run_literal_Some in Hrun as (s2 & -> & Hrun).
  rewrite run_title_part in Hrun.
  destruct (strip_prefix "/" s2) as [t|] eqn:E2; [|done].
  apply strip_prefix_Some in E2 as ->.
  destruct (is_title t) eqn:Ht; [|done].
  exists t. split; [done|]. split; [done|].
  injection Hrun as <-. by rewrite Hlen.
Qed.

(** Whatever [validPath] matches at the start of the text is a valid
    path. *)
Lemma run_validPath_sound p caps :
  run validPath 0 p ∅ (final 0) = Some caps →
  ∃ op t, valid_path p op t ∧ caps = registers t.
Proof.
  rewrite run_validPath_unfold.
  destruct (strip_prefix "/" p) as [s|] eqn:E1; [|done].
  apply strip_prefix_Some in E1 as ->.
  rewrite !run_alternate.
  destruct (run (OpLiteral "edit") _ _ _ _) eqn:Hedit.
  { intros [= <-]. apply run_operation in Hedit as (t & -> & Ht & ->); [|done].
    exists "edit", t. repeat split; auto with wiki. }
  destruct (run (OpLiteral "save") _ _ _ _) eqn:Hsave.
  { intros [= <-]. apply run_operation in Hsave as (t & -> & Ht & ->); [|done].
    exists "save", t. repeat split; auto with wiki. }
  intros Hview. apply run_operation in Hview as (t & -> & Ht & ->); [|done].
  exists "view", t. repeat split; auto with wiki.
Qed.

(** Every valid path is matched, with the groups where they belong. *)
Lemma run_validPath_complete p op t :
  valid_path p op t → run validPath 0 p ∅ (final 0) = Some (registers t).
Proof.
  intros (-> & Hop & Ht).
  rewrite run_validPath_unfold, strip_prefix_app, !run_alternate.
  assert (Htail : ∀ caps, run title_part 5 ("/" +:+ t) caps (final 0) =
                          Some (<[0%nat := (0, 6 + String.length t)%nat]>
                                  (<[2%nat := (6, 6 + String.length t)%nat]> caps))).
  { intros. by rewrite run_title_part, strip_prefix_app, Ht. }
  operation_cases Hop.
  - by rewrite run_literal_app, Htail.
  - replace (run (OpLiteral "edit") _ _ _ _) with (@None Captures) by done.
    by rewrite run_literal_app, Htail.
  - replace (run (OpLiteral "edit") _ _ _ _) with (@None Captures) by done.
    replace (run (OpLiteral "save") _ _ _ _) with (@None Captures) by done.
    by rewrite run_literal_app, Htail.
Qed.

(** The pattern starts with [^]: no match begins after the first byte. *)
Lemma search_validPath_later s pos : search validPath (S pos) s = None.
Proof.
  revert pos. induction s as [|c s IH]; intros pos; [done|]. simpl. apply IH.
Qed.

Lemma search_validPath p : search validPath 0 p = run validPath 0 p ∅ (final 0).
Proof.
  destruct p as [|c p]; cbn [search];
    destruct (run validPath 0 _ ∅ (final 0)); try done.
  apply search_validPath_later.
Qed.

Lemma registers_submatches p op t :
  valid_path p op t →
  map (λ i, match registers t !! i with
            | Some (b, e) => substring b (e - b) p
            | None => EmptyString
            end) (seq 0 (S (NumSubexp validPath))) = [p; op; t].
Proof.
  intros (-> & Hop & Ht). cbn [NumSubexp validPath Nat.max seq map]. unfold registers.
  pose proof (operations_length _ Hop) as Hlen.
  repeat f_equal.
  - rewrite lookup_insert_eq.
    replace (6 + String.length t - 0)%nat
      with (String.length ("/" +:+ op +:+ "/" +:+ t)).
    + apply substring_all.
    + rewrite !length_append, Hlen. simpl. lia.
  - rewrite lookup_insert_ne, lookup_insert_ne, lookup_insert_eq by done.
    change (5 - 1)%nat with 4%nat. rewrite (substring_skip "/") by done.
    by apply substring_take.
  - rewrite lookup_insert_ne, lookup_insert_eq by done.
    replace (6 + String.length t - 6)%nat with (String.length t) by lia.
    replace ("/" +:+ op +:+ "/" +:+ t) with (("/" +:+ op +:+ "/") +:+ t)
      by (by rewrite !append_assoc).
    rewrite (substring_skip _ _ 6) by (rewrite !length_append, Hlen; done).
    apply substring_all.
Qed.

(** [FindStringSubmatch] on [validPath]: a match exactly on the valid paths,
    and then the path, the operation and the title. *)
Lemma FindStringSubmatch_validPath_Some p m :
  FindStringSubmatch validPath p = Some m ↔ ∃ op t, valid_path p op t ∧ m = [p; op; t].
Proof.
  unfold FindStringSubmatch. rewrite search_validPath. split.
  - destruct (run validPath 0 p ∅ (final 0)) as [caps|] eqn:Hrun; [|done].
    apply run_validPath_sound in Hrun as (op & t & Hv & ->).
    intros Hm. injection Hm as Hm. subst m.
    exists op, t. split; [done|]. by apply registers_submatches.
  - intros (op & t & Hv & ->). rewrite (run_validPath_complete _ _ _ Hv).
    f_equal. by apply registers_submatches.
Qed.

Lemma FindStringSubmatch_validPath_None p :
  FindStringSubmatch validPath p = None ↔ ∀ op t, ¬ valid_path p op t.
Proof.
  split.
  - intros Hnone op t Hv.
    assert (FindStringSubmatch validPath p = Some [p; op; t]) as Hsome
      by (apply FindStringSubmatch_validPath_Some; eauto).
    congruence.
  - intros Hno. destruct (FindStringSubmatch validPath p) as [m|] eqn:Hm; [|done].
    apply FindStringSubmatch_validPath_Some in Hm as (op & t & Hv & _).
    by destruct (Hno op t).
Qed.

(** ** The serve mux *)

Lemma pathMatch_subtree pattern rest :
  http.ends_in_slash pattern = true → http.pathMatch pattern (pattern +:+ rest) = true.
Proof. intros Hp. unfold http.pathMatch. rewrite Hp. apply prefix_append. Qed.
(** ** The dispatch wrapper *)

Section Dispatch.

Context {S : Type} `{FileSystem S}.

Implicit Types (w : http.ResponseWriter) (r : http.Request) (world : World S).
Implicit Types fn : http.ResponseWriter → http.Request → string → IO S http.ResponseWriter.

Lemma makeHandler_valid fn w r world op t :
  valid_path (http.URL_Path r) op t →
  makeHandler fn w r world = fn w r t world.
Proof.
  intros Hv. unfold makeHandler.
  assert (FindStringSubmatch validPath (http.URL_Path r)
          = Some [http.URL_Path r; op; t]) as ->
    by (apply FindStringSubmatch_validPath_Some; eauto).
  done.
Qed.

Lemma makeHandler_invalid fn w r world :
  (∀ op t, ¬ valid_path (http.URL_Path r) op t) →
  makeHandler fn w r world = (http.NotFound w r, world).
Proof.
  intros Hno. unfold makeHandler.
  by apply FindStringSubmatch_validPath_None in Hno as ->.
Qed.

(** C2.  A request whose path is not of the form [/op/title], with [op]
    one of edit, save, view and [title] matching [[a-zA-Z0-9]+], is
    answered by the wrapper with 404 Not Found.  The answer is the same
    whatever handler [fn] the wrapper was built around, so no handler
    runs; and the world comes back as it was, with nothing added to the
    record of file-system calls. *)
Theorem makeHandler_rejects_invalid_path fn w r world :
  (∀ op t, ¬ valid_path (http.URL_Path r) op t) →
  makeHandler fn w r world
    = (w ++ [http.ReplyError "404 page not found" http.StatusNotFound], world)
  ∧ trace (makeHandler fn w r world).2 = trace world
  ∧ disk (makeHandler fn w r world).2 = disk world
  ∧ http.status (makeHandler fn [] r world).1 = Some 404.
Proof.
  intros Hno. rewrite !makeHandler_invalid by done. done.
Qed.

(** C3.  The wrapper either rejects the request, or hands [fn] a title
    made of characters of [[a-zA-Z0-9]] only, in which neither [/] nor
    [.] occurs.  A path whose title segment contains [/] or [.], such
    as [/view/../etc/passwd], is rejected: [fn] does not run and the
    file system is not asked for anything. *)
Theorem makeHandler_title_is_safe fn w r world :
  (makeHandler fn w r world = (http.NotFound w r, world)
   ∨ ∃ title, makeHandler fn w r world = fn w r title world
        ∧ is_title title = true
        ∧ occurs "/" title = false ∧ occurs "." title = false)
  ∧ (∀ op segment,
       http.URL_Path r = "/" +:+ op +:+ "/" +:+ segment →
       op ∈ operations →
       occurs "/" segment || occurs "." segment = true →
       makeHandler fn w r world = (http.NotFound w r, world)
       ∧ trace (makeHandler fn w r world).2 = trace world).
Proof.
  split.
  - destruct (FindStringSubmatch validPath (http.URL_Path r)) as [m|] eqn:Hm.
    + right. apply FindStringSubmatch_validPath_Some in Hm as (op & t & Hv & ->).
      exists t. split; [by eapply makeHandler_valid|].
      destruct Hv as (_ & _ & Ht). split; [done|].
      split; by apply is_title_occurs.
    + left. unfold makeHandler. by rewrite Hm.
  - intros op segment Hpath Hop Hseg.
    assert (∀ op' t, ¬ valid_path (http.URL_Path r) op' t) as Hno.
    { intros op' t Hv.
      assert (valid_path (http.URL_Path r) op segment → False) as Hcontra.
      { intros Hv'. destruct (valid_path_inj _ _ _ _ _ Hv Hv') as [_ <-].
        destruct Hv as (_ & _ & Ht).
        rewrite !(is_title_occurs _ _ Ht) in Hseg by done. done. }
      destruct Hv as (Hp & Hop' & Ht). rewrite Hpath in Hp.
      operation_cases Hop; operation_cases Hop';
        cbv [String.append] in Hp; try discriminate Hp;
        injection Hp as ->; apply Hcontra; by repeat split. }
    by rewrite !makeHandler_invalid.
Qed.

End Dispatch.

(** ** The handlers *)

(** [[]byte(s)] has the bytes of [s], as many and the same. *)
Lemma bytes_length s : length (bytes s) = String.length s.
Proof.
  unfold bytes, list_byte_of_string. rewrite List.length_map.
  induction s as [|c s IH]; [done|]. simpl. by rewrite IH.
Qed.

Section Handlers.

Context {S : Type} `{FileSystem S}.
Variable templates : Template.

Implicit Types (w : http.ResponseWriter) (r : http.Request) (world : World S).

Lemma renderTemplate_eq w tmpl p outs terr :
  templates (tmpl +:+ ".html") p = (outs, terr) →
  renderTemplate templates w tmpl p =
  match terr with
  | None => w ++ map http.ReplyWrite outs
  | Some e => w ++ map http.ReplyWrite outs
                ++ [http.ReplyError (Error e) http.StatusInternalServerError]
  end.
Proof.
  intros Ht. unfold renderTemplate, ExecuteTemplate. rewrite Ht.
  destruct terr; [|done]. unfold http.Error. by rewrite <- app_assoc.
Qed.

(** C5.  When [loadPage] fails, with whatever error the file system
    gave, [viewHandler] answers with a redirect, status 302 Found, to
    [/edit/] followed by the same title, which for a valid title is a
    path of the edit operation; when [loadPage] succeeds, it renders the
    template [view] with the page that was loaded. *)
Theorem viewHandler_redirects_or_renders w r title world :
  (∀ err world', loadPage title world = (Err err, world') →
     viewHandler templates w r title world
       = (w ++ [http.ReplyRedirect ("/edit/" +:+ title) 302], world')
     ∧ http.status (viewHandler templates [] r title world).1 = Some http.StatusFound
     ∧ (is_title title = true → valid_path ("/edit/" +:+ title) "edit" title))
  ∧ (∀ p world', loadPage title world = (Ok p, world') →
     viewHandler templates w r title world
       = (renderTemplate templates w "view" p, world')
     ∧ ∀ outs terr, templates "view.html" p = (outs, terr) →
         (viewHandler templates w r title world).1 =
         match terr with
         | None => w ++ map http.ReplyWrite outs
         | Some e => w ++ map http.ReplyWrite outs ++ [http.ReplyError (Error e) 500]
         end).
Proof.
  unfold viewHandler, bind, ret. split.
  - intros err world' ->. repeat split; auto with wiki.
  - intros p world' ->. split; [done|].
    intros outs terr Ht. cbn [fst]. by apply renderTemplate_eq.
Qed.


(** C7.  [saveHandler] reads the form field [body], which is the empty
    string when the form has no such field; it saves the page made of
    the title and that body, byte for byte, and this is the only thing
    it asks of the file system.  If [save] returns no error, the answer is a redirect,
    302 Found, to [/view/] followed by the title; if [save] returns an
    error, the answer is 500 Internal Server Error with the text of the
    error, and no redirect. *)
Theorem saveHandler_saves_then_redirects w r title world :
  (http.Form r !! "body" = None → http.FormValue r "body" = "")
  ∧ (∀ v vs, http.Form r !! "body" = Some (v :: vs) → http.FormValue r "body" = v)
  ∧ trace (saveHandler w r title world).2
      = trace world ++ [SysWriteFile (title +:+ ".txt")
                          (bytes (http.FormValue r "body")) 0x180%N]
  ∧ (∀ world',
       save (mkPage title (bytes (http.FormValue r "body"))) world = (None, world') →
       saveHandler w r title world
         = (w ++ [http.ReplyRedirect ("/view/" +:+ title) http.StatusFound], world'))
    ∧ (∀ err world',
       save (mkPage title (bytes (http.FormValue r "body"))) world = (Some err, world') →
       saveHandler w r title world
         = (w ++ [http.ReplyError (Error err) http.StatusInternalServerError], world')
       ∧ existsb http.is_redirect
           (drop (length w) (saveHandler w r title world).1) = false)
  ∧ string_of_list_byte (bytes (http.FormValue r "body")) = http.FormValue r "body"
  ∧ length (bytes (http.FormValue r "body")) = String.length (http.FormValue r "body")
  ∧ (http.Form r !! "body" = None →
       trace (saveHandler w r title world).2
       = trace world ++ [SysWriteFile (title +:+ ".txt") [] 0x180%N]).
Proof.
  assert (trace (saveHandler w r title world).2
          = trace world ++ [SysWriteFile (title +:+ ".txt")
                              (bytes (http.FormValue r "body")) 0x180%N]) as Htrace.
  { unfold saveHandler, bind, ret, save, WriteFile. cbn [Title Body].
    destruct (fs_write _ _ _ _) as [[e|] d]; done. }
  split; [|split; [|split; [|split; [|split; [|split; [|split]]]]]];
    [| | | | | apply string_of_list_byte_of_string | apply bytes_length
     | intros Hno; rewrite Htrace; unfold http.FormValue; by rewrite Hno].
  - unfold http.FormValue. by intros ->.
  - unfold http.FormValue. by intros v vs ->.
  - unfold saveHandler, bind, ret, save, WriteFile. cbn [Title Body].
    destruct (fs_write _ _ _ _) as [[e|] d]; done.
  - unfold saveHandler, bind, ret. by intros world' ->.
  - unfold saveHandler, bind, ret. intros err world' ->. split; [done|].
    cbn [fst]. unfold http.Error. by rewrite drop_app_length.
Qed.

Lemma lookup_handler_main path op title :
  valid_path path op title →
  ∃ pattern,
    http.lookup_handler (main (S:=S) templates) path None
    = Some (pattern, makeHandler (handler_for templates op)).
Proof.
  intros (-> & Hop & _).
  unfold main, http.HandleFunc. operation_cases Hop.
  - change ("/" +:+ "edit" +:+ "/" +:+ title) with ("/edit/" +:+ title).
    exists "/edit/". simpl. by rewrite pathMatch_subtree.
  - change ("/" +:+ "save" +:+ "/" +:+ title) with ("/save/" +:+ title).
    exists "/save/". simpl. by rewrite pathMatch_subtree.
  - change ("/" +:+ "view" +:+ "/" +:+ title) with ("/view/" +:+ title).
    exists "/view/". simpl. by rewrite pathMatch_subtree.
Qed.

(** C4, as amended.  The method of a request plays no part: a request
    for [/view/<title>], [/edit/<title>] or [/save/<title>] is served by
    the handler of that operation, called with the title, whatever its
    method is. *)
Theorem main_serves_every_method method path form w world op title :
  valid_path path op title →
  http.ServeHTTP (main templates) w (http.mkRequest method path form) world
    = handler_for templates op w (http.mkRequest method path form) title world.
Proof.
  intros Hv. unfold http.ServeHTTP. cbn [http.URL_Path].
  destruct (lookup_handler_main _ _ _ Hv) as [pattern ->].
  by apply makeHandler_valid with op.
Qed.

End Handlers.

(** ** The page store *)

Section Store.

Context {S : Type} `{FileSystem S}.

Implicit Types (world : World S).

Lemma save_trace p world :
  trace (save p world).2
  = trace world ++ [SysWriteFile (Title p +:+ ".txt") (Body p) 0x180%N].
Proof. unfold save, WriteFile. by destruct (fs_write _ _ _ _). Qed.

Lemma loadPage_trace title world :
  trace (loadPage title world).2 = trace world ++ [SysReadFile (title +:+ ".txt")].
Proof.
  unfold loadPage, bind, ReadFile. by destruct (fs_read _ _) as [[body|err] d].
Qed.

Lemma touched_save p world : touched (save p) world = [Title p +:+ ".txt"].
Proof. unfold touched. by rewrite save_trace, drop_app_length. Qed.

Lemma touched_loadPage title world : touched (loadPage title) world = [title +:+ ".txt"].
Proof. unfold touched. by rewrite loadPage_trace, drop_app_length. Qed.

Lemma loadPage_Ok title world p world' :
  loadPage title world = (Ok p, world') →
  Title p = title ∧ fs_read (title +:+ ".txt") (disk world) = (Ok (Body p), disk world').
Proof.
  unfold loadPage, bind, ret, ReadFile.
  destruct (fs_read _ _) as [[body|err] d]; [|done]. by intros [= <- <-].
Qed.

End Store.

(** *** The directory *)

Lemma dir_read_disk name d : (dir_read name d).2 = d.
Proof.
  unfold dir_read. destruct (_ <? _)%nat; [done|].
  destruct (d !! name) as [[mode data|]|]; [|done..]. by destruct (owner_may_read mode).
Qed.

Lemma dir_read_Ok name d data :
  (dir_read name d).1 = Ok data ↔
  (String.length name ≤ NAME_MAX)%nat
  ∧ ∃ mode, d !! name = Some (RegularFile mode data) ∧ owner_may_read mode = true.
Proof.
  unfold dir_read. destruct (NAME_MAX <? String.length name)%nat eqn:Hlen.
  - apply Nat.ltb_lt in Hlen. split; [done|]. intros [Hle _]. lia.
  - apply Nat.ltb_ge in Hlen.
    destruct (d !! name) as [[mode data'|]|]; cbn [fst].
    + destruct (owner_may_read mode) eqn:Hmode; cbn [fst]; split.
      * intros [= ->]. eauto.
      * by intros [_ (mode' & [= -> ->] & _)].
      * done.
      * intros [_ (mode' & [= -> ->] & Hr)]. congruence.
    + split; [done|]. by intros [_ (mode & ? & _)].
    + split; [done|]. by intros [_ (mode & ? & _)].
Qed.

Lemma dir_read_no_file name d :
  d !! name = None ∨ d !! name = Some Directory → ∃ err, (dir_read name d).1 = Err err.
Proof.
  unfold dir_read. intros Hno. destruct (_ <? _)%nat; [by eexists|].
  destruct Hno as [-> | ->]; by eexists.
Qed.

Lemma dir_read_ext name d d' :
  d !! name = d' !! name → (dir_read name d).1 = (dir_read name d').1.
Proof.
  unfold dir_read. intros <-. destruct (_ <? _)%nat; [done|].
  destruct (d !! name) as [[mode data|]|]; [|done..]. by destruct (owner_may_read mode).
Qed.

Lemma dir_write_None name data perm d :
  (dir_write name data perm d).1 = None →
  ∃ mode, (dir_write name data perm d).2 = <[name := RegularFile mode data]> d
    ∧ (d !! name = None ∧ mode = perm
       ∨ ∃ old, d !! name = Some (RegularFile mode old) ∧ owner_may_write mode = true)
    ∧ (String.length name ≤ NAME_MAX)%nat.
Proof.
  unfold dir_write. destruct (NAME_MAX <? String.length name)%nat eqn:Hlen; [done|].
  apply Nat.ltb_ge in Hlen.
  destruct (d !! name) as [[mode old|]|]; [| done |].
  - destruct (owner_may_write mode) eqn:Hmode; [|done]. intros _.
    exists mode. split; [done|]. split; [|done]. right. by exists old.
  - intros _. exists perm. split; [done|]. split; [|done]. by left.
Qed.

Lemma dir_write_Some name data perm d err :
  (dir_write name data perm d).1 = Some err → (dir_write name data perm d).2 = d.
Proof.
  unfold dir_write. destruct (_ <? _)%nat; [done|].
  destruct (d !! name) as [[mode old|]|]; [| done..].
  by destruct (owner_may_write mode).
Qed.

Lemma dir_write_other name name' data perm d :
  name ≠ name' → (dir_write name data perm d).2 !! name' = d !! name'.
Proof.
  intros Hne. unfold dir_write. destruct (_ <? _)%nat; [done|].
  destruct (d !! name) as [[mode old|]|]; cbn [snd]; [| done |].
  - destruct (owner_may_write mode); cbn [snd]; [|done]. by rewrite lookup_insert_ne.
  - by rewrite lookup_insert_ne.
Qed.

Lemma dir_write_directory name data perm d :
  d !! name = Some Directory → ∃ err, (dir_write name data perm d).1 = Some err.
Proof.
  unfold dir_write. intros ->. destruct (_ <? _)%nat; by eexists.
Qed.

Section Directory.

Implicit Types (world : World (gmap string Inode)).

Lemma loadPage_dir title world :
  loadPage title world =
  (match (dir_read (title +:+ ".txt") (disk world)).1 with
   | Ok body => Ok (mkPage title body)
   | Err err => Err err
   end,
   mkWorld (disk world) (trace world ++ [SysReadFile (title +:+ ".txt")])).
Proof.
  unfold loadPage, bind, ret, ReadFile. cbn [fs_read dirFS].
  pose proof (dir_read_disk (title +:+ ".txt") (disk world)) as Hd.
  destruct (dir_read (title +:+ ".txt") (disk world)) as [[body|err] d];
    cbn [fst snd] in *; by subst d.
Qed.

Lemma save_dir p world :
  save p world =
  ((dir_write (Title p +:+ ".txt") (Body p) 0x180%N (disk world)).1,
   mkWorld (dir_write (Title p +:+ ".txt") (Body p) 0x180%N (disk world)).2
     (trace world ++ [SysWriteFile (Title p +:+ ".txt") (Body p) 0x180%N])).
Proof.
  unfold save, WriteFile. cbn [fs_write dirFS]. by destruct (dir_write _ _ _ _).
Qed.

(** C8, as amended.  [save] makes one call to the file system, a
    [WriteFile] of the body to [<title>.txt] with permission 0600, which
    is read and write for the owner and nothing for anybody else.  When
    the call returns no error, the directory is as before except that
    [<title>.txt] is a regular file with exactly the body as contents:
    with mode 0600 if the call created it, and with the mode it had if it
    was there already.  On a name that belongs to a directory the call
    returns an error and changes nothing. *)
Theorem save_writes_title_txt title body world :
  trace (save (mkPage title body) world).2
    = trace world ++ [SysWriteFile (title +:+ ".txt") body 0x180%N]
  ∧ 0x180%N = N.lor S_IRUSR S_IWUSR
  ∧ N.land 0x180%N (N.lor S_IRWXG S_IRWXO) = 0%N
  ∧ (∀ world', save (mkPage title body) world = (None, world') →
       ∃ mode,
         disk world' = <[title +:+ ".txt" := RegularFile mode body]> (disk world)
         ∧ (disk world !! (title +:+ ".txt") = None → mode = 0x180%N)
         ∧ (∀ mode' old, disk world !! (title +:+ ".txt") = Some (RegularFile mode' old) →
              mode = mode'))
  ∧ (disk world !! (title +:+ ".txt") = Some Directory →
       (∃ err, (save (mkPage title body) world).1 = Some err)
       ∧ disk (save (mkPage title body) world).2 = disk world).
Proof.
  split; [apply save_trace|]. split; [done|]. split; [done|].
  rewrite !save_dir. cbn [Title Body fst snd disk]. split.
  - intros world' [= Hnone <-]. cbn [disk].
    apply dir_write_None in Hnone as (mode & -> & Hmode & _).
    exists mode. split; [done|]. split.
    + intros Hfree. destruct Hmode as [[_ ->]|(old & Hold & _)]; [done|congruence].
    + intros mode' old Hold. destruct Hmode as [[Hfree _]|(old' & Hold' & _)]; congruence.
  - intros Hdir.
    destruct (dir_write_directory _ body 0x180%N _ Hdir) as [err Herr].
    split; [by exists err|]. by apply dir_write_Some with err.
Qed.

(** C10.  When [loadPage] succeeds, the page it returns has the title
    that was asked for, and its body is the contents of the regular file
    [<title>.txt], all of it. *)
Theorem loadPage_returns_the_file title world p world' :
  loadPage title world = (Ok p, world') →
  Title p = title
  ∧ ∃ mode, disk world !! (title +:+ ".txt") = Some (RegularFile mode (Body p)).
Proof.
  intros Hload. apply loadPage_Ok in Hload as [Htitle Hread]. split; [done|].
  cbn [fs_read dirFS] in Hread.
  apply (f_equal fst) in Hread. cbn [fst] in Hread.
  apply dir_read_Ok in Hread as (_ & mode & Hfile & _). by exists mode.
Qed.

(** C1, as amended.  For a title matching [[a-zA-Z0-9]+] and any body:
    after a [save] that returned no error, [<title>.txt] holds exactly
    the body, so that a [loadPage] of the title which succeeds returns
    the page with that title and that body and no other; and it does
    succeed if the owner may read the file, as is the case when the
    [save] created it. *)
Theorem save_then_loadPage title body world world' :
  is_title title = true →
  save (mkPage title body) world = (None, world') →
  (∃ mode, disk world' !! (title +:+ ".txt") = Some (RegularFile mode body))
  ∧ (∀ p, (loadPage title world').1 = Ok p → p = mkPage title body)
  ∧ (disk world !! (title +:+ ".txt") = None →
       (loadPage title world').1 = Ok (mkPage title body))
  ∧ (∀ mode old,
       disk world !! (title +:+ ".txt") = Some (RegularFile mode old) →
       owner_may_read mode = true →
       (loadPage title world').1 = Ok (mkPage title body)).
Proof.
  intros _. rewrite save_dir. cbn [Title Body]. intros [= Hnone <-].
  apply dir_write_None in Hnone as Hwrite.
  destruct Hwrite as (mode & Hdisk & Hmode & Hlen).
  assert (∀ p, (loadPage title
                  (mkWorld (dir_write (title +:+ ".txt") body 0x180%N (disk world)).2
                     (trace world ++ [SysWriteFile (title +:+ ".txt") body 0x180%N]))).1
               = Ok p → p = mkPage title body) as Honly.
  { intros p. rewrite loadPage_dir. cbn [fst disk].
    destruct (dir_read _ _).1 as [data|err] eqn:Hread; [|done].
    apply dir_read_Ok in Hread as (_ & mode' & Hfile & _).
    rewrite Hdisk, lookup_insert_eq in Hfile. by intros [= <-]; injection Hfile as -> ->. }
  assert (owner_may_read mode = true →
          (loadPage title
             (mkWorld (dir_write (title +:+ ".txt") body 0x180%N (disk world)).2
                (trace world ++ [SysWriteFile (title +:+ ".txt") body 0x180%N]))).1
          = Ok (mkPage title body)) as Hreadable.
  { intros Hr. rewrite loadPage_dir. cbn [fst disk].
    assert ((dir_read (title +:+ ".txt")
               (dir_write (title +:+ ".txt") body 0x180%N (disk world)).2).1 = Ok body)
      as -> ; [|done].
    apply dir_read_Ok. split; [done|]. exists mode.
    by rewrite Hdisk, lookup_insert_eq. }
  split; [|split; [done|split]].
  - exists mode. cbn [disk]. by rewrite Hdisk, lookup_insert_eq.
  - intros Hfree. apply Hreadable.
    destruct Hmode as [[_ ->]|(old & Hold & _)]; [done|congruence].
  - intros mode' old Hold Hr. apply Hreadable.
    destruct Hmode as [[Hfree _]|(old' & Hold' & _)]; congruence.
Qed.

End Directory.

(** C9.  Two different titles, each matching [[a-zA-Z0-9]+], have
    different file names [<title>.txt]; these are the names [save] and
    [loadPage] ask the file system for, so the pages of two different
    titles are never kept in the same file, and saving one of them leaves
    what [loadPage] returns for the other as it was. *)
Theorem distinct_titles_distinct_files t1 t2 :
  is_title t1 = true → is_title t2 = true → t1 ≠ t2 →
  t1 +:+ ".txt" ≠ t2 +:+ ".txt"
  ∧ (∀ S (FS : FileSystem S) (world1 world2 : World S) b1 b2,
       touched (save (mkPage t1 b1)) world1 = touched (loadPage t1) world2
       ∧ touched (save (mkPage t1 b1)) world1 ≠ touched (save (mkPage t2 b2)) world2
       ∧ touched (loadPage t1) world1 ≠ touched (loadPage t2) world2
       ∧ touched (save (mkPage t1 b1)) world1 ≠ touched (loadPage t2) world2)
  ∧ (∀ (world : World (gmap string Inode)) b1,
       (loadPage t2 (save (mkPage t1 b1) world).2).1 = (loadPage t2 world).1).
Proof.
  intros _ _ Hne.
  assert (t1 +:+ ".txt" ≠ t2 +:+ ".txt") as Hfiles.
  { intros Heq. by apply append_inv_tail in Heq. }
  split; [done|]. split.
  - intros S FS world1 world2 b1 b2.
    rewrite !touched_save, !touched_loadPage. cbn [Title].
    repeat split; congruence.
  - intros world b1. rewrite save_dir, !loadPage_dir. cbn [Title Body fst snd disk].
    by rewrite (dir_read_ext _ _ (disk world)) by (by apply dir_write_other).
Qed.

(** ** The statements at work

    Each statement above that has a premise is applied here to a request
    one can try by hand: the working directory is empty, or holds
    [Test.txt], or has a directory by that name. *)

(** A template that fails before it has written anything gives a 500. *)
Example render_failure_is_500 :
  renderTemplate broken_templates [] "view" (mkPage "Test" [])
  = [http.ReplyError "html/template: view.html is undefined" 500]
  ∧ http.status (renderTemplate broken_templates [] "view" (mkPage "Test" []))
    = Some http.StatusInternalServerError.
Proof. split; reflexivity. Qed.

Lemma no_valid_path_computed p :
  FindStringSubmatch validPath p = None → ∀ op t, ¬ valid_path p op t.
Proof. apply FindStringSubmatch_validPath_None. Qed.

(** Saving [Test] with body [hello] into the empty directory, and loading
    it back. *)
Lemma save_then_loadPage_Test :
  is_title "Test" = true
  ∧ save (mkPage "Test" (bytes "hello")) empty_dir
    = (None,
       mkWorld {[ "Test.txt" := RegularFile 0x180%N
                    ["h"%byte; "e"%byte; "l"%byte; "l"%byte; "o"%byte] ]}
         [SysWriteFile "Test.txt"
            ["h"%byte; "e"%byte; "l"%byte; "l"%byte; "o"%byte] 0x180%N])
  ∧ (loadPage "Test"
       (mkWorld {[ "Test.txt" := RegularFile 0x180%N
                     ["h"%byte; "e"%byte; "l"%byte; "l"%byte; "o"%byte] ]}
          [SysWriteFile "Test.txt"
             ["h"%byte; "e"%byte; "l"%byte; "l"%byte; "o"%byte] 0x180%N])).1
    = Ok (mkPage "Test" (bytes "hello")).
Proof.
  assert (save (mkPage "Test" (bytes "hello")) empty_dir
          = (None,
             mkWorld {[ "Test.txt" := RegularFile 0x180%N
                          ["h"%byte; "e"%byte; "l"%byte; "l"%byte; "o"%byte] ]}
               [SysWriteFile "Test.txt"
                  ["h"%byte; "e"%byte; "l"%byte; "l"%byte; "o"%byte] 0x180%N]))
    as Hsave by reflexivity.
  split; [reflexivity|]. split; [exact Hsave|].
  exact (proj1 (proj2 (proj2 (save_then_loadPage "Test" (bytes "hello") empty_dir _
                                eq_refl Hsave))) eq_refl).
Defined.

(** The round trip is not unconditional (C1 as it was stated): where
    [Test.txt] is a directory, [save] returns an error, nothing is
    written, and the [loadPage] that follows fails as well. *)
Lemma save_onto_a_directory_fails :
  is_title "Test" = true
  ∧ disk blocked_dir !! "Test.txt" = Some Directory
  ∧ (save (mkPage "Test" (bytes "hello")) blocked_dir).1
    = Some (PathError "open" "Test.txt" EISDIR)
  ∧ (loadPage "Test" (save (mkPage "Test" (bytes "hello")) blocked_dir).2).1
    = Err (PathError "read" "Test.txt" EISDIR)
  ∧ (loadPage "Test" (save (mkPage "Test" (bytes "hello")) blocked_dir).2).1
    ≠ Ok (mkPage "Test" (bytes "hello")).
Proof. repeat split; try reflexivity. discriminate. Qed.

(** The owner bits: 0400 is for reading and 0200 for writing, 0600 has
    both, and the bits of the group and of the others give the owner
    nothing. *)
Example owner_bits :
  owner_may_read S_IRUSR = true ∧ owner_may_write S_IRUSR = false
  ∧ owner_may_read S_IWUSR = false ∧ owner_may_write S_IWUSR = true
  ∧ owner_may_read 0x180%N = true ∧ owner_may_write 0x180%N = true
  ∧ owner_may_read (N.lor S_IRWXG S_IRWXO) = false
  ∧ owner_may_write (N.lor S_IRWXG S_IRWXO) = false.
Proof. repeat split. Qed.

(** A name of 255 bytes is still accepted. *)
Example longest_title_is_saved :
  String.length (string_of_list_ascii (replicate 251 "a"%char) +:+ ".txt") = NAME_MAX
  ∧ (save (mkPage (string_of_list_ascii (replicate 251 "a"%char)) (bytes "hello"))
       empty_dir).1 = None.
Proof. split; vm_compute; reflexivity. Qed.

(** A file that its owner may write but not read takes the new contents,
    and still cannot be loaded: this is why the round trip asks for a
    file that may be read. *)
Example write_only_file_is_saved_not_loaded :
  (save (mkPage "Test" (bytes "hello")) write_only_dir).1 = None
  ∧ disk (save (mkPage "Test" (bytes "hello")) write_only_dir).2 !! "Test.txt"
    = Some (RegularFile 0x80%N ["h"%byte; "e"%byte; "l"%byte; "l"%byte; "o"%byte])
  ∧ (loadPage "Test" (save (mkPage "Test" (bytes "hello")) write_only_dir).2).1
    = Err (PathError "open" "Test.txt" EACCES).
Proof. repeat split. Qed.

(** A valid title can be too long for a file name: the write is refused,
    the save request is answered with 500, and the page cannot be loaded
    afterwards. *)
Example long_title_is_not_saved :
  is_title long_title = true
  ∧ String.length (long_title +:+ ".txt") = 256%nat
  ∧ (save (mkPage long_title (bytes "hello")) empty_dir).1
    = Some (PathError "open" (long_title +:+ ".txt") ENAMETOOLONG)
  ∧ http.ServeHTTP (main plain_templates) []
      (http.mkRequest "POST" ("/save/" +:+ long_title) {[ "body" := ["hello"] ]})
      empty_dir
    = ([http.ReplyError ("open " +:+ long_title +:+ ".txt: file name too long") 500],
       mkWorld ∅ [SysWriteFile (long_title +:+ ".txt") (bytes "hello") 0x180%N])
  ∧ (loadPage long_title
       (save (mkPage long_title (bytes "hello")) empty_dir).2).1
    = Err (PathError "open" (long_title +:+ ".txt") ENAMETOOLONG).
Proof. repeat split; vm_compute; reflexivity. Qed.

(** [/view/../etc/passwd] is no valid path, and is answered with 404. *)
Lemma passwd_is_rejected :
  (∀ op t, ¬ valid_path "/view/../etc/passwd" op t)
  ∧ makeHandler (viewHandler plain_templates) []
      (http.mkRequest "GET" "/view/../etc/passwd" ∅) empty_dir
    = ([http.ReplyError "404 page not found" 404], empty_dir).
Proof.
  assert (∀ op t, ¬ valid_path "/view/../etc/passwd" op t) as Hno
    by (apply no_valid_path_computed; reflexivity).
  split; [exact Hno|].
  exact (proj1 (makeHandler_rejects_invalid_path (viewHandler plain_templates) []
                  (http.mkRequest "GET" "/view/../etc/passwd" ∅) empty_dir Hno)).
Defined.

(** The same under [/save/]: the segment [../etc/passwd] has both a dot
    and a slash in it. *)
Lemma passwd_segment_is_rejected :
  occurs "/" "../etc/passwd" || occurs "." "../etc/passwd" = true
  ∧ makeHandler (saveHandler (S:=gmap string Inode)) []
      (http.mkRequest "POST" "/save/../etc/passwd" ∅) empty_dir
    = ([http.ReplyError "404 page not found" 404], empty_dir).
Proof.
  split; [reflexivity|].
  refine (proj1 (proj2 (makeHandler_title_is_safe saveHandler []
                          (http.mkRequest "POST" "/save/../etc/passwd" ∅) empty_dir)
                   "save" "../etc/passwd" _ _ _)).
  - reflexivity.
  - apply save_in_operations.
  - reflexivity.
Defined.

(** The methods are not restricted the way the interface description
    lists them (C4 as it was stated): [/edit/<title>] is listed for GET
    only and [/save/<title>] for POST only, yet a POST to [/edit/Test]
    runs [editHandler], which reads [Test.txt] and renders the edit
    template, and a GET of [/save/Test] runs [saveHandler], which
    replaces the contents of [Test.txt] by the empty body. *)
Lemma edit_runs_for_POST_and_save_for_GET :
  ("POST" ∉ listed_methods "edit")
  ∧ http.ServeHTTP (main plain_templates) []
      (http.mkRequest "POST" "/edit/Test" ∅) sample_dir
    = editHandler plain_templates [] (http.mkRequest "POST" "/edit/Test" ∅) "Test" sample_dir
  ∧ http.ServeHTTP (main plain_templates) []
      (http.mkRequest "POST" "/edit/Test" ∅) sample_dir
    = ([http.ReplyWrite "edit.html:Test:hello"],
       mkWorld (disk sample_dir) [SysReadFile "Test.txt"])
  ∧ ("GET" ∉ listed_methods "save")
  ∧ http.ServeHTTP (main plain_templates) []
      (http.mkRequest "GET" "/save/Test" ∅) sample_dir
    = saveHandler [] (http.mkRequest "GET" "/save/Test" ∅) "Test" sample_dir
  ∧ http.ServeHTTP (main plain_templates) []
      (http.mkRequest "GET" "/save/Test" ∅) sample_dir
    = ([http.ReplyRedirect "/view/Test" 302],
       mkWorld {[ "Test.txt" := RegularFile 0x1a4%N [] ]}
         [SysWriteFile "Test.txt" [] 0x180%N]).
Proof.
  split; [|split; [|split; [|split; [|split]]]].
  - cbn. rewrite list_elem_of_singleton. discriminate.
  - reflexivity.
  - reflexivity.
  - cbn. rewrite list_elem_of_singleton. discriminate.
  - reflexivity.
  - vm_compute. reflexivity.
Qed.

(** A DELETE of [/edit/Test] is served by [editHandler] like any other
    request for that path. *)
Lemma DELETE_is_served_too :
  valid_path "/edit/Test" "edit" "Test"
  ∧ http.ServeHTTP (main plain_templates) [] (http.mkRequest "DELETE" "/edit/Test" ∅) sample_dir
    = editHandler plain_templates [] (http.mkRequest "DELETE" "/edit/Test" ∅) "Test" sample_dir.
Proof.
  assert (valid_path "/edit/Test" "edit" "Test") as Hv
    by (apply (valid_path_intro "edit" "Test"); [apply edit_in_operations|reflexivity]).
  split; [exact Hv|].
  exact (main_serves_every_method plain_templates "DELETE" "/edit/Test" ∅ []
           sample_dir "edit" "Test" Hv).
Defined.

(** Viewing [Test] where there is no [Test.txt], and where there is. *)
Lemma view_of_missing_page :
  loadPage "Test" empty_dir
    = (Err (PathError "open" "Test.txt" ENOENT), mkWorld ∅ [SysReadFile "Test.txt"])
  ∧ viewHandler plain_templates [] (http.mkRequest "GET" "/view/Test" ∅) "Test" empty_dir
    = ([http.ReplyRedirect "/edit/Test" 302], mkWorld ∅ [SysReadFile "Test.txt"])
  ∧ viewHandler plain_templates [] (http.mkRequest "GET" "/view/Test" ∅) "Test" sample_dir
    = ([http.ReplyWrite "view.html:Test:hello"],
       mkWorld (disk sample_dir) [SysReadFile "Test.txt"]).
Proof.
  split; [reflexivity|]. split.
  - refine (proj1 (proj1 (viewHandler_redirects_or_renders plain_templates []
                            (http.mkRequest "GET" "/view/Test" ∅) "Test" empty_dir)
                     (PathError "open" "Test.txt" ENOENT)
                     (mkWorld ∅ [SysReadFile "Test.txt"]) _)).
    reflexivity.
  - refine (proj1 (proj2 (viewHandler_redirects_or_renders plain_templates []
                            (http.mkRequest "GET" "/view/Test" ∅) "Test" sample_dir)
                     (mkPage "Test" (bytes "hello"))
                     (mkWorld (disk sample_dir) [SysReadFile "Test.txt"]) _)).
    reflexivity.
Defined.


(** Saving the form body [hello] under [Test]: into the empty directory,
    where the five bytes end up in [Test.txt], and where [Test.txt] is a
    directory. *)
Lemma save_of_form_body :
  saveHandler [] (http.mkRequest "POST" "/save/Test" {[ "body" := ["hello"] ]})
    "Test" empty_dir
    = ([http.ReplyRedirect "/view/Test" 302],
       mkWorld {[ "Test.txt" := RegularFile 0x180%N
                    ["h"%byte; "e"%byte; "l"%byte; "l"%byte; "o"%byte] ]}
         [SysWriteFile "Test.txt"
            ["h"%byte; "e"%byte; "l"%byte; "l"%byte; "o"%byte] 0x180%N])
  ∧ saveHandler [] (http.mkRequest "POST" "/save/Test" {[ "body" := ["hello"] ]})
      "Test" blocked_dir
    = ([http.ReplyError "open Test.txt: is a directory" 500],
       mkWorld (disk blocked_dir)
         [SysWriteFile "Test.txt"
            ["h"%byte; "e"%byte; "l"%byte; "l"%byte; "o"%byte] 0x180%N]).
Proof.
  split.
  - refine (proj1 (proj2 (proj2 (proj2 (saveHandler_saves_then_redirects []
              (http.mkRequest "POST" "/save/Test" {[ "body" := ["hello"] ]})
              "Test" empty_dir)))) _ _).
    reflexivity.
  - refine (proj1 (proj1 (proj2 (proj2 (proj2 (proj2 (saveHandler_saves_then_redirects []
              (http.mkRequest "POST" "/save/Test" {[ "body" := ["hello"] ]})
              "Test" blocked_dir))))) (PathError "open" "Test.txt" EISDIR) _ _)).
    reflexivity.
Defined.

(** [save] creates [Test.txt] with mode 0600 in the empty directory. *)
Lemma save_creates_and_truncates :
  save (mkPage "Test" (bytes "hi")) empty_dir
    = (None,
       mkWorld {[ "Test.txt" := RegularFile 0x180%N ["h"%byte; "i"%byte] ]}
         [SysWriteFile "Test.txt" ["h"%byte; "i"%byte] 0x180%N])
  ∧ ∃ mode,
      {[ "Test.txt" := RegularFile 0x180%N ["h"%byte; "i"%byte] ]}
      = <[ "Test.txt" := RegularFile mode (bytes "hi") ]> (disk empty_dir)
      ∧ (disk empty_dir !! "Test.txt" = None → mode = 0x180%N).
Proof.
  assert (save (mkPage "Test" (bytes "hi")) empty_dir
          = (None,
             mkWorld {[ "Test.txt" := RegularFile 0x180%N ["h"%byte; "i"%byte] ]}
               [SysWriteFile "Test.txt" ["h"%byte; "i"%byte] 0x180%N]))
    as Hsave by reflexivity.
  split; [exact Hsave|].
  destruct (proj1 (proj2 (proj2 (proj2
              (save_writes_title_txt "Test" (bytes "hi") empty_dir)))) _ Hsave)
    as (mode & Hdisk & Hnew & _).
  exists mode. split; [exact Hdisk|exact Hnew].
Defined.

(** The file does not always end up with mode 0600 (C8 as it was
    stated): a [Test.txt] that is there with mode 0644 gets the new
    contents in place of the old and still has mode 0644. *)
Lemma existing_file_keeps_its_mode :
  disk sample_dir !! "Test.txt"
    = Some (RegularFile 0x1a4%N ["h"%byte; "e"%byte; "l"%byte; "l"%byte; "o"%byte])
  ∧ (save (mkPage "Test" (bytes "hi")) sample_dir).1 = None
  ∧ disk (save (mkPage "Test" (bytes "hi")) sample_dir).2 !! "Test.txt"
    = Some (RegularFile 0x1a4%N ["h"%byte; "i"%byte])
  ∧ 0x1a4%N ≠ 0x180%N.
Proof. repeat split; try reflexivity. discriminate. Qed.

(** [Test] and [Tests] are kept in different files. *)
Lemma Test_and_Tests_do_not_collide :
  is_title "Test" = true ∧ is_title "Tests" = true ∧ "Test" ≠ "Tests"
  ∧ "Test.txt" ≠ "Tests.txt".
Proof.
  split; [reflexivity|]. split; [reflexivity|].
  assert ("Test" ≠ "Tests") as Hne by discriminate.
  split; [exact Hne|].
  exact (proj1 (distinct_titles_distinct_files "Test" "Tests" eq_refl eq_refl Hne)).
Defined.

(** Loading [Test] where [Test.txt] holds [hello]. *)
Lemma loadPage_of_sample :
  loadPage "Test" sample_dir
    = (Ok (mkPage "Test" (bytes "hello")), mkWorld (disk sample_dir) [SysReadFile "Test.txt"])
  ∧ Title (mkPage "Test" (bytes "hello")) = "Test"
  ∧ ∃ mode, disk sample_dir !! "Test.txt" = Some (RegularFile mode (bytes "hello")).
Proof.
  assert (loadPage "Test" sample_dir
          = (Ok (mkPage "Test" (bytes "hello")),
             mkWorld (disk sample_dir) [SysReadFile "Test.txt"])) as Hload
    by reflexivity.
  split; [exact Hload|].
  exact (loadPage_returns_the_file "Test" sample_dir _ _ Hload).
Defined.

(** * Further properties *)

(** ** [getTitle] and the submatches *)

(** A match of [validPath] has exactly three elements, so that indexing it
    at 2, as [makeHandler] and [getTitle] do, stays in range; the first
    element is the whole path, since the pattern is anchored at both ends,
    the second is the operation and the third the title. *)
Theorem validPath_submatches_in_range p m :
  FindStringSubmatch validPath p = Some m →
  length m = 3%nat
  ∧ m !! 0%nat = Some p
  ∧ (∃ op, m !! 1%nat = Some op ∧ op ∈ operations)
  ∧ m !! 2%nat = Some (nth 2 m "")
  ∧ is_title (nth 2 m "") = true.
Proof.
  intros Hm. apply FindStringSubmatch_validPath_Some in Hm as (op & t & Hv & ->).
  destruct Hv as (_ & Hop & Ht). repeat split; [|done..]. by exists op.
Qed.

(** For instance on [/view/Test]. *)
Lemma submatches_of_view_Test :
  FindStringSubmatch validPath "/view/Test" = Some ["/view/Test"; "view"; "Test"]
  ∧ length ["/view/Test"; "view"; "Test"] = 3%nat.
Proof.
  assert (FindStringSubmatch validPath "/view/Test"
          = Some ["/view/Test"; "view"; "Test"]) as Hm by reflexivity.
  split; [exact Hm|].
  exact (proj1 (validPath_submatches_in_range "/view/Test" _ Hm)).
Defined.

Section GetTitle.

Context {S : Type} `{FileSystem S}.

Implicit Types (w : http.ResponseWriter) (r : http.Request) (world : World S).
Implicit Types fn : http.ResponseWriter → http.Request → string → IO S http.ResponseWriter.

(** [getTitle] returns a title exactly for the valid paths, and then the
    title of the path, leaving the response untouched; for every other path
    it writes the 404 reply and returns the error [Invalid Page Title].  A
    title it returns is made of letters and digits, with no slash and no
    dot in it. *)
Theorem getTitle_returns_the_title w r :
  (∀ op t, valid_path (http.URL_Path r) op t → getTitle w r = (w, Ok t))
  ∧ ((∀ op t, ¬ valid_path (http.URL_Path r) op t) →
       getTitle w r = (http.NotFound w r, Err (errorString "Invalid Page Title"))
       ∧ http.status (getTitle [] r).1 = Some http.StatusNotFound)
  ∧ (∀ w' t, getTitle w r = (w', Ok t) →
       w' = w ∧ (∃ op, valid_path (http.URL_Path r) op t)
       ∧ occurs "/" t = false ∧ occurs "." t = false).
Proof.
  unfold getTitle. split; [|split].
  - intros op t Hv.
    assert (FindStringSubmatch validPath (http.URL_Path r)
            = Some [http.URL_Path r; op; t]) as ->
      by (apply FindStringSubmatch_validPath_Some; eauto).
    done.
  - intros Hno. by apply FindStringSubmatch_validPath_None in Hno as ->.
  - intros w' t.
    destruct (FindStringSubmatch validPath (http.URL_Path r)) as [m|] eqn:Hm; [|done].
    apply FindStringSubmatch_validPath_Some in Hm as (op & t' & Hv & ->).
    intros [= <- <-]. split; [done|]. split; [by exists op|].
    destruct Hv as (_ & _ & Ht). split; by apply is_title_occurs.
Qed.

(** [makeHandler] does what [getTitle] followed by the handler would do:
    where [getTitle] fails, the response is the one [getTitle] wrote and
    the handler does not run; where it returns a title, the handler runs
    on the untouched response with that title. *)
Theorem makeHandler_is_getTitle_then_fn fn w r world :
  makeHandler fn w r world =
  match getTitle w r with
  | (w', Err _) => (w', world)
  | (_, Ok title) => fn w r title world
  end
  ∧ (∀ title, (getTitle w r).2 = Ok title → makeHandler fn w r world = fn w r title world)
  ∧ (∀ err, (getTitle w r).2 = Err err →
       makeHandler fn w r world = ((getTitle w r).1, world)
       ∧ err = errorString "Invalid Page Title").
Proof.
  unfold makeHandler, getTitle.
  destruct (FindStringSubmatch validPath (http.URL_Path r)) as [m|];
    cbn [fst snd]; (split; [done|]); split; try done.
  - by intros title [= <-].
  - by intros err [= <-].
Qed.

(** The wrapper does not compare the operation named in the path with the
    handler it was built around: given any valid path, of whichever
    operation, it runs its handler on the title.  It is the serve mux that
    sends each subtree to its own wrapper. *)
Theorem makeHandler_ignores_the_operation fn w r world op title :
  valid_path (http.URL_Path r) op title →
  makeHandler fn w r world = fn w r title world.
Proof. apply makeHandler_valid. Qed.

End GetTitle.

(** [getTitle] on [/edit/Test]. *)
Lemma getTitle_of_edit_Test :
  valid_path "/edit/Test" "edit" "Test"
  ∧ getTitle [] (http.mkRequest "GET" "/edit/Test" ∅) = ([], Ok "Test").
Proof.
  assert (valid_path "/edit/Test" "edit" "Test") as Hv
    by (apply (valid_path_intro "edit" "Test"); [apply edit_in_operations|reflexivity]).
  split; [exact Hv|].
  exact (proj1 (getTitle_returns_the_title []
                  (http.mkRequest "GET" "/edit/Test" ∅)) "edit" "Test" Hv).
Defined.

(** [makeHandler] on a path [getTitle] accepts. *)
Lemma makeHandler_after_getTitle_Test :
  (getTitle [] (http.mkRequest "GET" "/view/Test" ∅)).2 = Ok "Test"
  ∧ makeHandler (viewHandler plain_templates) []
      (http.mkRequest "GET" "/view/Test" ∅) sample_dir
    = viewHandler plain_templates [] (http.mkRequest "GET" "/view/Test" ∅) "Test" sample_dir.
Proof.
  split; [reflexivity|].
  refine (proj1 (proj2 (makeHandler_is_getTitle_then_fn (viewHandler plain_templates) []
                          (http.mkRequest "GET" "/view/Test" ∅) sample_dir)) "Test" _).
  reflexivity.
Defined.

(** The wrapper of [viewHandler], handed the path [/save/Test], views
    [Test]. *)
Lemma view_wrapper_on_save_path :
  valid_path "/save/Test" "save" "Test"
  ∧ makeHandler (viewHandler plain_templates) []
      (http.mkRequest "GET" "/save/Test" ∅) sample_dir
    = viewHandler plain_templates [] (http.mkRequest "GET" "/save/Test" ∅) "Test" sample_dir.
Proof.
  assert (valid_path "/save/Test" "save" "Test") as Hv
    by (apply (valid_path_intro "save" "Test"); [apply save_in_operations|reflexivity]).
  split; [exact Hv|].
  exact (makeHandler_ignores_the_operation (viewHandler plain_templates) []
           (http.mkRequest "GET" "/save/Test" ∅) sample_dir "save" "Test" Hv).
Defined.

(** ** What a request can do to the file system *)

Lemma lookup_handler_elem {S} (mux : http.ServeMux S) path best ph :
  http.lookup_handler mux path best = Some ph → ph ∈ mux ∨ best = Some ph.
Proof.
  revert best. induction mux as [|[pattern h] mux IH]; intros best Hl; [by right|].
  cbn [http.lookup_handler] in Hl. apply IH in Hl as [Hin|Hbest].
  - left. by apply elem_of_cons; right.
  - destruct (_ && _) in Hbest; [|by right].
    injection Hbest as <-. left. by apply elem_of_cons; left.
Qed.

Section Requests.

Context {S : Type} `{FileSystem S}.
Variable templates : Template.

Implicit Types (w : http.ResponseWriter) (r : http.Request) (world : World S).

Lemma main_registered pattern h :
  (pattern, h) ∈ main (S:=S) templates →
  ∃ op, op ∈ operations ∧ h = makeHandler (handler_for templates op).
Proof.
  unfold main, http.HandleFunc. cbn [app].
  rewrite !elem_of_cons, elem_of_nil.
  intros [[= -> ->]|[[= -> ->]|[[= -> ->]|[]]]].
  - exists "view". auto with wiki.
  - exists "save". auto with wiki.
  - exists "edit". auto with wiki.
Qed.

Lemma viewHandler_trace w r title world :
  trace (viewHandler templates w r title world).2
  = trace world ++ [SysReadFile (title +:+ ".txt")].
Proof.
  unfold viewHandler, bind. rewrite <- loadPage_trace.
  by destruct (loadPage title world) as [[p|err] world'].
Qed.

Lemma editHandler_trace w r title world :
  trace (editHandler templates w r title world).2
  = trace world ++ [SysReadFile (title +:+ ".txt")].
Proof.
  unfold editHandler, bind. rewrite <- loadPage_trace.
  by destruct (loadPage title world) as [[p|err] world'].
Qed.

Lemma saveHandler_trace w r title world :
  trace (saveHandler w r title world).2
  = trace world ++ [SysWriteFile (title +:+ ".txt")
                      (bytes (http.FormValue r "body")) 0x180%N].
Proof.
    unfold saveHandler, bind, ret, save, WriteFile. cbn [Title Body].
  by destruct (fs_write _ _ _ _) as [[e|] d].
Qed.

Lemma handler_for_touched op w r title world :
  op ∈ operations →
  touched (handler_for templates op w r title) world = [title +:+ ".txt"].
Proof.
  intros Hop. unfold touched.
  operation_cases Hop; cbn [handler_for String.eqb Ascii.eqb Bool.eqb];
    rewrite ?editHandler_trace, ?saveHandler_trace, ?viewHandler_trace;
    by rewrite drop_app_length.
Qed.

Lemma makeHandler_cases
    (fn : http.ResponseWriter → http.Request → string → IO S http.ResponseWriter)
    w r world :
  makeHandler fn w r world = (http.NotFound w r, world)
  ∨ ∃ op title, valid_path (http.URL_Path r) op title
      ∧ makeHandler fn w r world = fn w r title world.
Proof.
  destruct (FindStringSubmatch validPath (http.URL_Path r)) as [m|] eqn:Hm.
  - right. apply FindStringSubmatch_validPath_Some in Hm as (op & t & Hv & ->).
    exists op, t. split; [done|]. by eapply makeHandler_valid.
  - left. unfold makeHandler. by rewrite Hm.
Qed.



(** Whatever the request is (any path, any method, any form), serving it
    asks the file system for nothing, or for exactly one file, and that
    file is [<title>.txt] for a title made of letters and digits: the
    server cannot be made to read or write any other file. *)
Theorem server_touches_page_files_only w r world :
  touched (http.ServeHTTP (main templates) w r) world = []
  ∨ ∃ op title, valid_path (http.URL_Path r) op title
      ∧ touched (http.ServeHTTP (main templates) w r) world = [title +:+ ".txt"].
Proof.
  unfold http.ServeHTTP, touched.
  destruct (http.lookup_handler _ _ _) as [[pattern h]|] eqn:Hl.
  - apply lookup_handler_elem in Hl as [Hin|]; [|done].
    apply main_registered in Hin as (op' & Hop' & ->).
    destruct (makeHandler_cases (handler_for templates op') w r world)
      as [->|(op & title & Hv & ->)].
    + left. cbn [snd]. by rewrite drop_all.
    + right. exists op, title. split; [done|]. by apply handler_for_touched.
  - left. unfold ret. cbn [snd]. by rewrite drop_all.
Qed.

End Requests.

Section Served.

Context {S : Type} `{FileSystem S}.
Variable templates : Template.

Implicit Types (w : http.ResponseWriter) (r : http.Request) (world : World S).

Lemma ServeHTTP_main_valid w r world op title :
  valid_path (http.URL_Path r) op title →
  http.ServeHTTP (main templates) w r world = handler_for templates op w r title world.
Proof.
  intros Hv. unfold http.ServeHTTP.
  destruct (lookup_handler_main templates _ _ _ Hv) as [pattern ->].
  by apply makeHandler_valid with op.
Qed.

Lemma ServeHTTP_main_invalid w r world :
  (∀ op title, ¬ valid_path (http.URL_Path r) op title) →
  http.ServeHTTP (main templates) w r world = (http.NotFound w r, world).
Proof.
  intros Hno. unfold http.ServeHTTP.
  destruct (http.lookup_handler _ _ _) as [[pattern h]|] eqn:Hl; [|done].
  apply lookup_handler_elem in Hl as [Hin|]; [|done].
  apply main_registered in Hin as (op' & Hop' & ->).
  by apply makeHandler_invalid.
Qed.

Lemma ServeHTTP_main_cases w r world :
  http.ServeHTTP (main templates) w r world = (http.NotFound w r, world)
  ∨ ∃ op title, valid_path (http.URL_Path r) op title
      ∧ http.ServeHTTP (main templates) w r world
        = handler_for templates op w r title world.
Proof.
  destruct (FindStringSubmatch validPath (http.URL_Path r)) as [m|] eqn:Hm.
  - right. apply FindStringSubmatch_validPath_Some in Hm as (op & t & Hv & _).
    exists op, t. split; [done|]. by apply ServeHTTP_main_valid.
  - left. apply ServeHTTP_main_invalid. by apply FindStringSubmatch_validPath_None.
Qed.

End Served.

(** ** The working directory under requests *)

Section DirectoryRequests.

Variable templates : Template.

Implicit Types (w : http.ResponseWriter) (r : http.Request).
Implicit Types (world : World (gmap string Inode)).

Lemma viewHandler_disk w r title world :
  disk (viewHandler templates w r title world).2 = disk world.
Proof.
  unfold viewHandler, bind. rewrite loadPage_dir.
  by destruct (dir_read _ _).1.
Qed.

Lemma editHandler_disk w r title world :
  disk (editHandler templates w r title world).2 = disk world.
Proof. unfold editHandler, bind. by rewrite loadPage_dir. Qed.

Lemma saveHandler_disk w r title world :
  disk (saveHandler w r title world).2
  = disk (save (mkPage title (bytes (http.FormValue r "body"))) world).2.
Proof.
  unfold saveHandler, bind. by destruct (save _ world) as [[err|] world'].
Qed.

Lemma saveHandler_reply w r title world :
  (saveHandler w r title world).1
  = match (save (mkPage title (bytes (http.FormValue r "body"))) world).1 with
    | Some err => w ++ [http.ReplyError (Error err) http.StatusInternalServerError]
    | None => w ++ [http.ReplyRedirect ("/view/" +:+ title) http.StatusFound]
    end.
Proof.
  unfold saveHandler, bind. by destruct (save _ world) as [[err|] world'].
Qed.

(** Serving a request leaves every entry of the directory as it was, with
    one exception: a request for a valid path [/save/<title>] may give
    [<title>.txt] new contents, the [body] of the form, as a regular file.
    So the server never removes an entry, never makes a directory, and a
    request that is not a valid save request changes nothing at all. *)
Theorem server_changes_only_the_saved_page w r world :
  (∀ name,
     disk (http.ServeHTTP (main templates) w r world).2 !! name = disk world !! name
     ∨ ∃ title mode,
         valid_path (http.URL_Path r) "save" title
         ∧ name = title +:+ ".txt"
         ∧ disk (http.ServeHTTP (main templates) w r world).2 !! name
           = Some (RegularFile mode (bytes (http.FormValue r "body"))))
  ∧ ((∀ title, ¬ valid_path (http.URL_Path r) "save" title) →
       disk (http.ServeHTTP (main templates) w r world).2 = disk world).
Proof.
  destruct (ServeHTTP_main_cases templates w r world) as [->|(op & title & Hv & ->)].
  { split; [by left|done]. }
  pose proof Hv as (_ & Hop & _). operation_cases Hop;
    cbn [handler_for String.eqb Ascii.eqb Bool.eqb].
  - rewrite editHandler_disk. split; [by left|done].
  - split; [|intros Hno; by destruct (Hno title)].
    intros name. rewrite saveHandler_disk, save_dir. cbn [Title Body disk snd].
    destruct (decide (title +:+ ".txt" = name)) as [<-|Hne];
      [|left; by apply dir_write_other].
    destruct (dir_write (title +:+ ".txt") (bytes (http.FormValue r "body"))
                0x180%N (disk world)).1 as [err|] eqn:Hwrite.
    + left. by rewrite (dir_write_Some _ _ _ _ _ Hwrite).
    + right. apply dir_write_None in Hwrite as (mode & -> & _).
      exists title, mode. split; [done|]. split; [done|]. apply lookup_insert_eq.
  - rewrite viewHandler_disk. split; [by left|done].
Qed.

(** Saving and then following the redirect shows what was saved.  When a
    request for [/save/<title>] has been answered with the redirect to
    [/view/<title>], rather than with the 500 of a failed write, and the
    owner may read [<title>.txt] (the request created it, or it was
    readable before), then from now on a request for [/view/<title>]
    renders the view template, and one for [/edit/<title>] the edit
    template, with the page made of the title and the [body] of the
    form, byte for byte. *)
Theorem saved_page_is_served title method form world :
  is_title title = true →
  (http.ServeHTTP (main templates) []
     (http.mkRequest method ("/save/" +:+ title) form) world).1
    = [http.ReplyRedirect ("/view/" +:+ title) http.StatusFound] →
  (disk world !! (title +:+ ".txt") = None
   ∨ ∃ mode old, disk world !! (title +:+ ".txt") = Some (RegularFile mode old)
       ∧ owner_may_read mode = true) →
  string_of_list_byte
    (bytes (http.FormValue (http.mkRequest method ("/save/" +:+ title) form) "body"))
    = http.FormValue (http.mkRequest method ("/save/" +:+ title) form) "body"
  ∧ ∀ method' form' w,
      (http.ServeHTTP (main templates) w
         (http.mkRequest method' ("/view/" +:+ title) form')
         (http.ServeHTTP (main templates) []
            (http.mkRequest method ("/save/" +:+ title) form) world).2).1
      = renderTemplate templates w "view"
          (mkPage title
             (bytes (http.FormValue (http.mkRequest method ("/save/" +:+ title) form) "body")))
      ∧ (http.ServeHTTP (main templates) w
           (http.mkRequest method' ("/edit/" +:+ title) form')
           (http.ServeHTTP (main templates) []
              (http.mkRequest method ("/save/" +:+ title) form) world).2).1
        = renderTemplate templates w "edit"
            (mkPage title
             (bytes (http.FormValue (http.mkRequest method ("/save/" +:+ title) form) "body"))).
Proof.
  intros Ht.
  set (r1 := http.mkRequest method ("/save/" +:+ title) form).
  rewrite (ServeHTTP_main_valid templates [] r1 world "save" title)
    by (by repeat split; auto with wiki).
  cbn [handler_for String.eqb Ascii.eqb Bool.eqb].
  rewrite saveHandler_reply. cbn [app]. intros Hreply Hreadable.
  split; [apply string_of_list_byte_of_string|].
  assert ((save (mkPage title (bytes (http.FormValue r1 "body"))) world).1 = None)
    as Hnone by (by destruct (save _ world).1).
  clear Hreply. rewrite save_dir in Hnone. cbn [Title Body fst] in Hnone.
  apply dir_write_None in Hnone as (mode & Hdisk & Hmode & Hlen).
  assert (owner_may_read mode = true) as Hr.
  { destruct Hmode as [[_ ->]|(old & Hold & _)]; [done|].
    destruct Hreadable as [Hfree|(mode' & old' & Hold' & Hr)]; congruence. }
  assert ((dir_read (title +:+ ".txt") (disk (saveHandler [] r1 title world).2)).1
          = Ok (bytes (http.FormValue r1 "body"))) as Hread.
  { apply dir_read_Ok. split; [done|]. exists mode.
    rewrite saveHandler_disk, save_dir. cbn [Title Body disk snd].
    by rewrite Hdisk, lookup_insert_eq. }
  intros method' form' w. split.
  - rewrite (ServeHTTP_main_valid templates _ _ _ "view" title)
      by (by repeat split; auto with wiki).
    cbn [handler_for String.eqb Ascii.eqb Bool.eqb].
    unfold viewHandler, bind, ret. rewrite loadPage_dir. by rewrite Hread.
  - rewrite (ServeHTTP_main_valid templates _ _ _ "edit" title)
      by (by repeat split; auto with wiki).
    cbn [handler_for String.eqb Ascii.eqb Bool.eqb].
    unfold editHandler, bind, ret. rewrite loadPage_dir. by rewrite Hread.
Qed.

End DirectoryRequests.

Section DirectoryPages.

Variable templates : Template.

Implicit Types (w : http.ResponseWriter) (r : http.Request).
Implicit Types (world : World (gmap string Inode)).

(** A page that cannot be loaded is offered for creation: where
    [<title>.txt] is missing or is a directory, a request for
    [/view/<title>] is answered with a redirect to [/edit/<title>] and
    leaves the directory as it was, and a request for that path then
    renders the edit template with the title and an empty body. *)
Theorem missing_page_is_offered_for_editing title method form world :
  is_title title = true →
  (disk world !! (title +:+ ".txt") = None
   ∨ disk world !! (title +:+ ".txt") = Some Directory) →
  (http.ServeHTTP (main templates) []
     (http.mkRequest method ("/view/" +:+ title) form) world).1
    = [http.ReplyRedirect ("/edit/" +:+ title) http.StatusFound]
  ∧ disk (http.ServeHTTP (main templates) []
            (http.mkRequest method ("/view/" +:+ title) form) world).2
    = disk world
  ∧ ∀ method' form' w,
      http.ServeHTTP (main templates) w
        (http.mkRequest method' ("/edit/" +:+ title) form')
        (http.ServeHTTP (main templates) []
           (http.mkRequest method ("/view/" +:+ title) form) world).2
      = (renderTemplate templates w "edit" (mkPage title []),
         mkWorld (disk world)
           (trace world ++ [SysReadFile (title +:+ ".txt");
                            SysReadFile (title +:+ ".txt")])).
Proof.
  intros Ht Hmissing.
  destruct (dir_read_no_file _ _ Hmissing) as [err Herr].
  rewrite (ServeHTTP_main_valid templates [] _ world "view" title)
    by (by repeat split; auto with wiki).
  cbn [handler_for String.eqb Ascii.eqb Bool.eqb].
  assert (viewHandler templates []
            (http.mkRequest method ("/view/" +:+ title) form) title world
          = ([http.ReplyRedirect ("/edit/" +:+ title) http.StatusFound],
             mkWorld (disk world) (trace world ++ [SysReadFile (title +:+ ".txt")])))
    as ->.
  { unfold viewHandler, bind, ret. rewrite loadPage_dir. by rewrite Herr. }
  split; [done|]. split; [done|]. intros method' form' w.
  rewrite (ServeHTTP_main_valid templates _ _ _ "edit" title)
    by (by repeat split; auto with wiki).
  cbn [handler_for String.eqb Ascii.eqb Bool.eqb].
  unfold editHandler, bind, ret. rewrite loadPage_dir. cbn [disk trace snd fst].
  rewrite <- app_assoc. by rewrite Herr.
Qed.

Lemma dir_write_error_ext name data data' perm d d' :
  d !! name = d' !! name →
  (dir_write name data perm d).1 = (dir_write name data' perm d').1.
Proof.
  unfold dir_write. intros <-. destruct (_ <? _)%nat; [done|].
  destruct (d !! name) as [[mode old|]|]; [|done..]. by destruct (owner_may_write mode).
Qed.

Lemma dir_write_disk name data perm d :
  (dir_write name data perm d).2 =
  match (dir_write name data perm d).1 with
  | Some _ => d
  | None =>
      <[name := RegularFile
                  match d !! name with
                  | Some (RegularFile mode _) => mode
                  | _ => perm
                  end data]> d
  end.
Proof.
  unfold dir_write. destruct (_ <? _)%nat; [done|].
  destruct (d !! name) as [[mode old|]|]; [|done..]. by destruct (owner_may_write mode).
Qed.

Lemma dir_write_twice name data1 data2 perm d :
  owner_may_write perm = true →
  dir_write name data2 perm (dir_write name data1 perm d).2 = dir_write name data2 perm d.
Proof.
  intros Hperm. unfold dir_write.
  destruct (NAME_MAX <? String.length name)%nat eqn:Hlen; cbn [snd]; rewrite ?Hlen; [done|].
  destruct (d !! name) as [[mode old|]|] eqn:Hold; cbn [snd].
  - destruct (owner_may_write mode) eqn:Hmode; cbn [snd]; rewrite ?Hold, ?Hmode; [|done].
    by rewrite lookup_insert_eq, Hmode, insert_insert_eq.
  - by rewrite Hold.
  - by rewrite lookup_insert_eq, Hperm, insert_insert_eq.
Qed.

(** The last writer wins: saving a page over an earlier save of the same
    title leaves the directory exactly as the later save alone would have,
    and returns what the later save alone would have returned.  In
    particular saving the same page twice is the same as saving it once. *)
Theorem save_overwrites_earlier_save title body1 body2 world :
  disk (save (mkPage title body2) (save (mkPage title body1) world).2).2
    = disk (save (mkPage title body2) world).2
  ∧ (save (mkPage title body2) (save (mkPage title body1) world).2).1
    = (save (mkPage title body2) world).1
  ∧ (loadPage title (save (mkPage title body2) (save (mkPage title body1) world).2).2).1
    = (loadPage title (save (mkPage title body2) world).2).1.
Proof.
  rewrite !save_dir, !loadPage_dir. cbn [Title Body disk snd fst].
  by rewrite dir_write_twice.
Qed.

(** Saves of different titles do not get in each other's way: in either
    order they leave the same directory, and each returns what it would
    have returned without the other. *)
Theorem saves_of_different_titles_commute title1 title2 body1 body2 world :
  title1 ≠ title2 →
  disk (save (mkPage title1 body1) (save (mkPage title2 body2) world).2).2
    = disk (save (mkPage title2 body2) (save (mkPage title1 body1) world).2).2
  ∧ (save (mkPage title1 body1) (save (mkPage title2 body2) world).2).1
    = (save (mkPage title1 body1) world).1.
Proof.
  intros Hne.
  assert (title1 +:+ ".txt" ≠ title2 +:+ ".txt") as Hfiles.
  { intros Heq. by apply append_inv_tail in Heq. }
  rewrite !save_dir. cbn [Title Body disk snd fst].
  set (n1 := title1 +:+ ".txt") in *. set (n2 := title2 +:+ ".txt") in *.
  set (d := disk world).
    assert ((dir_write n2 body2 0x180%N d).2 !! n1 = d !! n1) as H21
    by (by apply dir_write_other).
  assert ((dir_write n1 body1 0x180%N d).2 !! n2 = d !! n2) as H12
    by (by apply dir_write_other).
    pose proof (dir_write_error_ext n1 body1 body1 0x180%N _ _ H21) as He1.
  pose proof (dir_write_error_ext n2 body2 body2 0x180%N _ _ H12) as He2.
  split; [|done].
  rewrite (dir_write_disk n1 body1 _ (dir_write n2 body2 0x180%N d).2).
  rewrite (dir_write_disk n2 body2 _ (dir_write n1 body1 0x180%N d).2).
    rewrite He1, He2, H21, H12.
  rewrite (dir_write_disk n1 body1 _ d), (dir_write_disk n2 body2 _ d).
  destruct (dir_write n1 body1 0x180%N d).1, (dir_write n2 body2 0x180%N d).1;
    try done.
  by apply insert_insert_ne.
Qed.

(** [loadPage] fails where [<title>.txt] is missing or is a directory,
    and never succeeds without a regular file of that name; it succeeds
    on every regular file that the owner may read and whose name is not
    too long, the empty file included.  It never changes the directory,
    and so returns the same when it is called again. *)
Theorem loadPage_fails_without_a_regular_file title world :
  (disk world !! (title +:+ ".txt") = None
   ∨ disk world !! (title +:+ ".txt") = Some Directory →
     ∃ err, (loadPage title world).1 = Err err)
  ∧ (∀ p, (loadPage title world).1 = Ok p →
       ∃ mode, disk world !! (title +:+ ".txt") = Some (RegularFile mode (Body p)))
  ∧ (∀ mode data,
       disk world !! (title +:+ ".txt") = Some (RegularFile mode data) →
       owner_may_read mode = true →
       (String.length (title +:+ ".txt") ≤ NAME_MAX)%nat →
       (loadPage title world).1 = Ok (mkPage title data))
  ∧ (disk world !! (title +:+ ".txt") = None →
     (String.length (title +:+ ".txt") ≤ NAME_MAX)%nat →
       (loadPage title world).1 = Err (PathError "open" (title +:+ ".txt") ENOENT)
       ∧ Error (PathError "open" (title +:+ ".txt") ENOENT)
         = "open " +:+ title +:+ ".txt: no such file or directory")
  ∧ disk (loadPage title world).2 = disk world
  ∧ (loadPage title (loadPage title world).2).1 = (loadPage title world).1.
Proof.
  rewrite !loadPage_dir. cbn [fst snd disk]. split; [|split; [|split; [|split]]].
  - intros Hno. destruct (dir_read_no_file _ _ Hno) as [err ->]. by exists err.
  - intros p. destruct (dir_read _ _).1 as [body|err] eqn:Hread; [|done].
    intros [= <-]. apply dir_read_Ok in Hread as (_ & mode & Hfile & _). by exists mode.
  - intros mode data Hfile Hr Hlen.
    assert ((dir_read (title +:+ ".txt") (disk world)).1 = Ok data) as ->; [|done].
    apply dir_read_Ok. split; [done|]. by exists mode.
  - intros Hfree Hlen. unfold dir_read.
    apply Nat.ltb_ge in Hlen. rewrite Hlen, Hfree. split; [done|].
    cbn [Error Errno_Error]. by rewrite append_assoc.
  - done.
Qed.

End DirectoryPages.

(** ** What the client is told *)

Section Replies.

Context {S : Type} `{FileSystem S}.
Variable templates : Template.

Implicit Types (w : http.ResponseWriter) (r : http.Request) (world : World S).

(** When the template returns an error, [renderTemplate] sends the text of
    the error with 500 after whatever the template had written.  The
    client sees the status 500 only if the template had written nothing:
    once a piece of the page has gone out, the status line is 200 and the
    error text is appended to the page. *)
Theorem renderTemplate_reports_template_error w tmpl p outs err :
  templates (tmpl +:+ ".html") p = (outs, Some err) →
  renderTemplate templates w tmpl p
    = w ++ map http.ReplyWrite outs
        ++ [http.ReplyError (Error err) http.StatusInternalServerError]
  ∧ last (renderTemplate templates w tmpl p)
    = Some (http.ReplyError (Error err) http.StatusInternalServerError)
  ∧ (outs = [] → http.status (renderTemplate templates [] tmpl p) = Some 500)
  ∧ (outs ≠ [] → http.status (renderTemplate templates [] tmpl p) = Some 200).
Proof.
    intros Ht. rewrite (renderTemplate_eq templates w _ _ _ _ Ht).
  rewrite (renderTemplate_eq templates [] _ _ _ _ Ht).
  split; [done|]. split; [|split].
  - by rewrite !app_assoc, last_snoc.
  - by intros ->.
  - by destruct outs.
Qed.



End Replies.

(** ** The further statements at work *)

(** Viewing [Test] is no save request and leaves the directory alone. *)
Lemma view_changes_nothing :
  (∀ title, ¬ valid_path "/view/Test" "save" title)
  ∧ disk (http.ServeHTTP (main plain_templates) []
            (http.mkRequest "GET" "/view/Test" ∅) sample_dir).2
    = disk sample_dir.
Proof.
  assert (∀ title, ¬ valid_path "/view/Test" "save" title) as Hno.
  { intros title Hv.
    assert (valid_path "/view/Test" "view" "Test") as Hv'
      by (apply (valid_path_intro "view" "Test"); [apply view_in_operations|reflexivity]).
    destruct (valid_path_inj _ _ _ _ _ Hv Hv') as [Hop _]. discriminate Hop. }
  split; [exact Hno|].
  exact (proj2 (server_changes_only_the_saved_page plain_templates []
                  (http.mkRequest "GET" "/view/Test" ∅) sample_dir) Hno).
Defined.

(** Saving [hello] under [Test] in the empty directory, then viewing it. *)
Lemma Test_is_saved_and_served :
  is_title "Test" = true
  ∧ http.ServeHTTP (main plain_templates) []
      (http.mkRequest "POST" "/save/Test" {[ "body" := ["hello"] ]}) empty_dir
    = ([http.ReplyRedirect "/view/Test" 302],
       mkWorld {[ "Test.txt" := RegularFile 0x180%N
                    ["h"%byte; "e"%byte; "l"%byte; "l"%byte; "o"%byte] ]}
         [SysWriteFile "Test.txt"
            ["h"%byte; "e"%byte; "l"%byte; "l"%byte; "o"%byte] 0x180%N])
  ∧ disk empty_dir !! "Test.txt" = None
  ∧ (http.ServeHTTP (main plain_templates) []
       (http.mkRequest "GET" "/view/Test" ∅)
       (http.ServeHTTP (main plain_templates) []
          (http.mkRequest "POST" "/save/Test" {[ "body" := ["hello"] ]}) empty_dir).2).1
    = [http.ReplyWrite "view.html:Test:hello"].
Proof.
  split; [reflexivity|]. split; [reflexivity|]. split; [reflexivity|].
  exact (proj1 (proj2 (saved_page_is_served plain_templates "Test" "POST"
                         {[ "body" := ["hello"] ]} empty_dir eq_refl eq_refl
                         (or_introl eq_refl))
                  "GET" ∅ [])).
Defined.

(** Viewing [Test] in the empty directory, then following the redirect. *)
Lemma missing_Test_is_offered :
  is_title "Test" = true
  ∧ disk empty_dir !! "Test.txt" = None
  ∧ (http.ServeHTTP (main plain_templates) []
       (http.mkRequest "GET" "/view/Test" ∅) empty_dir).1
    = [http.ReplyRedirect "/edit/Test" 302]
  ∧ (http.ServeHTTP (main plain_templates) []
       (http.mkRequest "GET" "/edit/Test" ∅)
       (http.ServeHTTP (main plain_templates) []
          (http.mkRequest "GET" "/view/Test" ∅) empty_dir).2).1
    = [http.ReplyWrite "edit.html:Test:"].
Proof.
  split; [reflexivity|]. split; [reflexivity|]. split.
  - exact (proj1 (missing_page_is_offered_for_editing plain_templates "Test" "GET" ∅
                    empty_dir eq_refl (or_introl eq_refl))).
  - exact (f_equal fst
             (proj2 (proj2 (missing_page_is_offered_for_editing plain_templates "Test"
                              "GET" ∅ empty_dir eq_refl (or_introl eq_refl)))
                "GET" ∅ [])).
Defined.

(** Saving [A] and [B] in either order. *)
Lemma saves_of_A_and_B_commute :
  "A" ≠ "B"
  ∧ disk (save (mkPage "A" (bytes "x")) (save (mkPage "B" (bytes "y")) sample_dir).2).2
    = disk (save (mkPage "B" (bytes "y")) (save (mkPage "A" (bytes "x")) sample_dir).2).2.
Proof.
  assert ("A" ≠ "B") as Hne by discriminate.
  split; [exact Hne|].
  exact (proj1 (saves_of_different_titles_commute "A" "B" (bytes "x") (bytes "y")
                  sample_dir Hne)).
Defined.

(** Loading [Test] from the empty directory, and from the one that has
    the file. *)
Lemma loadPage_in_empty_dir :
  disk empty_dir !! "Test.txt" = None
  ∧ (∃ err, (loadPage "Test" empty_dir).1 = Err err)
  ∧ disk sample_dir !! "Test.txt"
    = Some (RegularFile 0x1a4%N ["h"%byte; "e"%byte; "l"%byte; "l"%byte; "o"%byte])
  ∧ owner_may_read 0x1a4%N = true
  ∧ (String.length "Test.txt" ≤ NAME_MAX)%nat
  ∧ (loadPage "Test" sample_dir).1
    = Ok (mkPage "Test" ["h"%byte; "e"%byte; "l"%byte; "l"%byte; "o"%byte]).
Proof.
  assert (String.length "Test.txt" ≤ NAME_MAX)%nat as Hlen by (vm_compute; lia).
  split; [reflexivity|]. split.
  - exact (proj1 (loadPage_fails_without_a_regular_file "Test" empty_dir)
             (or_introl eq_refl)).
  - split; [reflexivity|]. split; [reflexivity|]. split; [exact Hlen|].
    exact (proj1 (proj2 (proj2 (loadPage_fails_without_a_regular_file "Test" sample_dir)))
             0x1a4%N _ eq_refl eq_refl Hlen).
Defined.

(** A template that fails at once, and one that fails after the title. *)
Lemma template_errors_reported :
  broken_templates "view.html" (mkPage "Test" [])
    = ([], Some (errorString "html/template: view.html is undefined"))
  ∧ http.status (renderTemplate broken_templates [] "view" (mkPage "Test" [])) = Some 500
  ∧ partial_templates "view.html" (mkPage "Test" [])
    = (["Test"], Some (errorString "html/template: view.html failed"))
  ∧ http.status (renderTemplate partial_templates [] "view" (mkPage "Test" [])) = Some 200.
Proof.
  assert (["Test"] ≠ @nil string) as Hout by discriminate.
  split; [reflexivity|]. split; [|split; [reflexivity|]].
  - exact (proj1 (proj2 (proj2 (renderTemplate_reports_template_error broken_templates
                                  [] "view" (mkPage "Test" []) [] _ eq_refl)))
             eq_refl).
  - exact (proj2 (proj2 (proj2 (renderTemplate_reports_template_error partial_templates
                                  [] "view" (mkPage "Test" []) ["Test"] _ eq_refl)))
             Hout).
Defined.
